(** * golden-pdf-maker: the Markdown scanner of [pdf_generator.py]

    A shallow embedding of [_sanitize], [_fmt_inline], [_table] and
    [markdown_to_flowables], and the properties of the block sequence they
    produce.

    Python strings are sequences of Unicode code points: [str] is
    [list N].  The ReportLab flowables the module builds ([Paragraph],
    [Spacer], [Table]) are constructors of a data type; what ReportLab does
    with them on a page is outside this development. *)

From Stdlib Require Import List NArith Bool String Ascii Lia Arith.
Import ListNotations.
Local Open Scope N_scope.

(** ** Python strings *)

Definition str := list N.

(** An ASCII literal as a Python string. *)
Definition py (s : string) : str :=
  map N_of_ascii (list_ascii_of_string s).

Definition LF : N := 10.
Definition CR : N := 13.
Definition TAB : N := 9.
Definition SPACE : N := 32.
Definition QUOTE : N := 34.
Definition HASH : N := 35.
Definition AMP : N := 38.
Definition HYPHEN : N := 45.
Definition BACKSLASH : N := 92.
Definition PIPE : N := 124.
Definition BULLET : N := 8226.

(** [s.startswith(p)] *)
Fixpoint startswith (s p : str) {struct p} : bool :=
  match p with
  | [] => true
  | x :: p' =>
      match s with
      | [] => false
      | y :: s' => (x =? y) && startswith s' p'
      end
  end.

(** [sub in s] *)
Fixpoint contains (sub s : str) : bool :=
  match s with
  | [] => startswith [] sub
  | _ :: s' => startswith s sub || contains sub s'
  end.

(** [ch in chars] for a single character. *)
Definition char_in (c : N) (chars : str) : bool :=
  existsb (N.eqb c) chars.

(** [s.replace(old, new)]: every non-overlapping occurrence of [old], found
    from the left, becomes [new].  [skip] counts the characters of the
    occurrence just replaced that are still to be passed over.  With an
    empty [old] Python puts [new] before every character and at the end. *)
Fixpoint replace_from (old new s : str) (skip : nat) : str :=
  match s with
  | [] => []
  | c :: s' =>
      match skip with
      | S k => replace_from old new s' k
      | O =>
          if startswith s old
          then new ++ replace_from old new s' (List.length old - 1)
          else c :: replace_from old new s' 0
      end
  end.

Definition replace (old new s : str) : str :=
  match old with
  | [] => new ++ flat_map (fun c => c :: new) s
  | _ => replace_from old new s 0
  end.

(** [sep.join(parts)] *)
Fixpoint join (sep : str) (parts : list str) : str :=
  match parts with
  | [] => []
  | [p] => p
  | p :: rest => p ++ sep ++ join sep rest
  end.

(** [str.isspace] on one character: CPython's [_PyUnicode_IsWhitespace]. *)
Definition is_space (c : N) : bool :=
  ((9 <=? c) && (c <=? 13)) || ((28 <=? c) && (c <=? 32))
  || (c =? 133) || (c =? 160) || (c =? 5760)
  || ((8192 <=? c) && (c <=? 8202))
  || (c =? 8232) || (c =? 8233) || (c =? 8239) || (c =? 8287)
  || (c =? 12288).

(** Line boundaries of [str.splitlines]: CPython's [_PyUnicode_IsLinebreak]. *)
Definition is_linebreak (c : N) : bool :=
  ((10 <=? c) && (c <=? 13)) || ((28 <=? c) && (c <=? 30))
  || (c =? 133) || (c =? 8232) || (c =? 8233).

Fixpoint drop_leading (p : N -> bool) (s : str) : str :=
  match s with
  | [] => []
  | c :: s' => if p c then drop_leading p s' else s
  end.

Fixpoint drop_trailing (p : N -> bool) (s : str) : str :=
  match s with
  | [] => []
  | c :: s' =>
      match drop_trailing p s' with
      | [] => if p c then [] else [c]
      | t => c :: t
      end
  end.

(** [s.lstrip()], [s.rstrip()], [s.strip()] *)
Definition lstrip (s : str) : str := drop_leading is_space s.
Definition rstrip (s : str) : str := drop_trailing is_space s.
Definition strip (s : str) : str := rstrip (lstrip s).

(** [s.strip(chars)] *)
Definition strip_chars (chars s : str) : str :=
  drop_trailing (fun c => char_in c chars)
    (drop_leading (fun c => char_in c chars) s).

(** [s.split(sep)] for a one-character separator, the only use the module
    makes of it: the result always has at least one field. *)
Fixpoint split_on (sep : N) (s : str) : list str :=
  match s with
  | [] => [[]]
  | c :: s' =>
      if c =? sep then [] :: split_on sep s'
      else match split_on sep s' with
           | [] => [[c]]
           | f :: fs => (c :: f) :: fs
           end
  end.

(** [s.splitlines()]: [cur] is the line being read.  A carriage return
    followed by a line feed is one boundary; a final boundary opens no
    further line. *)
Fixpoint splitlines_from (s cur : str) : list str :=
  match s with
  | [] => match cur with [] => [] | _ => [cur] end
  | c :: s' =>
      if is_linebreak c then
        cur :: (if c =? CR
                then match s' with
                     | d :: s'' =>
                         if d =? LF then splitlines_from s'' []
                         else splitlines_from s' []
                     | [] => splitlines_from s' []
                     end
                else splitlines_from s' [])
      else splitlines_from s' (cur ++ [c])
  end.

Definition splitlines (s : str) : list str := splitlines_from s [].

(** [html.escape(s)] with its default [quote=True]. *)
Definition html_escape (s : str) : str :=
  let s := replace (py "&") (py "&amp;") s in
  let s := replace (py "<") (py "&lt;") s in
  let s := replace (py ">") (py "&gt;") s in
  let s := replace [QUOTE] (py "&quot;") s in
  replace (py "'") (py "&#x27;") s.

(** ** Exceptions *)

(** The operation of the scanner that can raise is the style lookup
    [STYLES[key]]: a [KeyError] when the sheet has no style of that name. *)
Inductive exn : Type :=
| KeyError (key : string).

Inductive result (A : Type) : Type :=
| Ok (a : A)
| Raise (e : exn).
Arguments Ok {A} a.
Arguments Raise {A} e.

Definition bind {A B : Type} (m : result A) (k : A -> result B) : result B :=
  match m with
  | Ok a => k a
  | Raise e => Raise e
  end.

Notation "x <- m ;; k" := (bind m (fun x => k))
  (at level 61, m at next level, right associativity).

(** ** Flowables *)

(** A paragraph style, known by the name it is registered under; its
    attributes (font, size, leading, spacing) only reach ReportLab. *)
Inductive ParagraphStyle : Type :=
| style_named (name : string).

#[local] Set Warnings "-register-all".

(** What the module puts in its story.  [Spacer] is always
    [Spacer(1, 0.15 * inch)]. *)
Inductive Flowable : Type :=
| Paragraph (text : str) (style : ParagraphStyle)
| Spacer
| Table (rows : list (list Flowable)).

(** The blocks of the specification, as the flowables that stand for them. *)
Definition heading_key (level : nat) : string :=
  match level with
  | 1%nat => "H1"
  | 2%nat => "H2"
  | _ => "H3"
  end.

Definition Heading (level : nat) (text : str) : Flowable :=
  Paragraph text (style_named (heading_key level)).

Definition BodyParagraph (text : str) : Flowable :=
  Paragraph text (style_named "Body").

Definition ListItem (text : str) : Flowable :=
  Paragraph (BULLET :: SPACE :: text) (style_named "Body").

Definition isTable (f : Flowable) : bool :=
  match f with Table _ => true | _ => false end.

Definition isCode (f : Flowable) : bool :=
  match f with
  | Paragraph _ (style_named n) => String.eqb n "Code"
  | _ => false
  end.

(** ** The Unicode tables *)

(** [unicodedata.category(ch).startswith("C")] belongs to the interpreter,
    not to the module: the scanner below takes it as a parameter. *)
Class UnicodeData : Type := { category_C : N -> bool }.

(** The names in [getSampleStyleSheet()], which belongs to ReportLab. *)
Class SampleStyleSheet : Type := { sample : list string }.

Definition in_range (lo hi c : N) : bool := (lo <=? c) && (c <=? hi).

(** [ucd_C] is the table used for closed examples.  It marks the controls
    (Cc), the surrogates (Cs), the private use areas (Co), the
    noncharacters and the format characters (Cf) of the Basic Multilingual
    Plane listed here; code points that are unassigned in a given Unicode
    version are not marked.  The examples only contain ASCII text, on which
    every version agrees. *)

Definition ucd_C (c : N) : bool :=
  in_range 0 31 c || in_range 127 159 c
  || (c =? 173)
  || in_range 1536 1541 c || (c =? 1564) || (c =? 1757) || (c =? 1807)
  || (c =? 6158)
  || in_range 8203 8207 c || in_range 8234 8238 c
  || in_range 8288 8292 c || in_range 8294 8303 c
  || in_range 55296 57343 c
  || in_range 57344 63743 c
  || in_range 64976 65007 c
  || (c =? 65279) || in_range 65529 65531 c
  || in_range 65534 65535 c
  || in_range 983040 1114111 c.

Definition ucd : UnicodeData := {| category_C := ucd_C |}.

(** The names of ReportLab's sample style sheet, for closed examples. *)
Definition reportlab_sample : SampleStyleSheet :=
  {| sample :=
       ["Normal"; "BodyText"; "Italic"; "Heading1"; "Heading2"; "Heading3";
        "Heading4"; "Heading5"; "Heading6"; "Title"; "Bullet"; "Definition";
        "Code"; "UnorderedList"; "OrderedList"]%string |}.

(** ** Inline markdown *)

(** Expansion of a replacement template of [re.sub]: a backslash followed by
    a backslash stands for one backslash, a backslash followed by a digit
    [1]..[9] for the text of that group.  These are the escapes the
    module's two templates can be read as. *)
Fixpoint expand_template (tmpl : str) (groups : list str) : str :=
  match tmpl with
  | [] => []
  | c :: t' =>
      if c =? BACKSLASH then
        match t' with
        | [] => [c]
        | d :: t'' =>
            if d =? BACKSLASH then BACKSLASH :: expand_template t'' groups
            else if in_range 49 57 d
            then nth (N.to_nat (d - 49)) groups [] ++ expand_template t'' groups
            else c :: d :: expand_template t'' groups
        end
      else c :: expand_template t' groups
  end.

(** The tail [(.+?)D] of the two patterns, [D] a literal delimiter: the
    group takes one character, which may not be a line feed, and then as few
    more as it needs for [D] to follow.  Returns the group and the number of
    characters matched. *)
Fixpoint lazy_group_until (D s : str) : option (str * nat) :=
  match s with
  | [] => None
  | c :: s' =>
      if c =? LF then None
      else if startswith s' D then Some ([c], S (List.length D))
      else match lazy_group_until D s' with
           | Some (g, n) => Some (c :: g, S n)
           | None => None
           end
  end.

(** A match of [D(.+?)D] at the head of [s]. *)
Definition match_emphasis (D s : str) : option (str * nat) :=
  if startswith s D then
    match lazy_group_until D (skipn (List.length D) s) with
    | Some (g, n) => Some (g, (List.length D + n)%nat)
    | None => None
    end
  else None.

(** [re.sub(D(.+?)D, tmpl, s)]: the matches are taken from the left and do
    not overlap; [skip] counts the characters of the last match still to be
    passed over. *)
Fixpoint re_sub_from (D tmpl s : str) (skip : nat) : str :=
  match s with
  | [] => []
  | c :: s' =>
      match skip with
      | S k => re_sub_from D tmpl s' k
      | O =>
          match match_emphasis D s with
          | Some (g, n) =>
              expand_template tmpl [g] ++ re_sub_from D tmpl s' (n - 1)
          | None => c :: re_sub_from D tmpl s' 0
          end
      end
  end.

Definition re_sub_emphasis (D tmpl s : str) : str := re_sub_from D tmpl s 0.

(** The templates as Python reads the two raw string literals: each holds
    two backslashes before the digit. *)
Definition bold_template : str := py "<b>\\1</b>".
Definition italic_template : str := py "<i>\\1</i>".

Definition _fmt_inline (t : str) : str :=
  let t := html_escape t in
  let t := re_sub_emphasis (py "**") bold_template t in
  re_sub_emphasis (py "*") italic_template t.

(** [re.fullmatch(r"-+", s)] finds a match. *)
Definition fullmatch_hyphens (s : str) : bool :=
  match s with
  | [] => false
  | _ => forallb (N.eqb HYPHEN) s
  end.

(** ** The scanner *)

Record ScanState : Type := mkState {
  flow : list Flowable;
  code_buf : list str;
  table_buf : list (list str);
  in_code : bool
}.

Definition initial : ScanState := mkState [] [] [] false.

Definition append_flow (fs : list Flowable) (st : ScanState) : ScanState :=
  mkState (flow st ++ fs) (code_buf st) (table_buf st) (in_code st).

(** The markup of a code paragraph. *)
Definition code_markup (buf : list str) : str :=
  replace [LF] (py "<br/>")
    (replace (py " ") (py "&nbsp;") (html_escape (join [LF] buf))).

(** [[c.strip() for c in line.strip().strip("|").split("|")]] *)
Definition table_cells (line : str) : list str :=
  map strip (split_on PIPE (strip_chars (py "|") (strip line))).

(** The separator row: every cell, its spaces removed, is matched in full
    by [re.fullmatch] with the pattern [-+]. *)
Definition is_separator_row (cells : list str) : bool :=
  forallb (fun c => fullmatch_hyphens (replace (py " ") [] c)) cells.

(** [line.strip().startswith("```")] *)
Definition is_fence (line : str) : bool :=
  startswith (strip line) (py "```").

(** ["|" in line and not line.lstrip().startswith("#")] *)
Definition is_table_line (line : str) : bool :=
  contains (py "|") line && negb (startswith (lstrip line) (py "#")).

Section Scanner.

Context {unicodedata : UnicodeData} {stylesheet : SampleStyleSheet}.

(** *** Style sheet *)

Definition _BASE : list string := ["H1"; "H2"; "H3"; "Body"; "Code"]%string.

Definition style_in (name : string) (sheet : list string) : bool :=
  existsb (String.eqb name) sheet.

(** The loop that runs when the module is loaded: every name of [_BASE]
    the sheet lacks is added to it. *)
Definition register (sheet : list string) (name : string) : list string :=
  if negb (style_in name sheet) then sheet ++ [name] else sheet.

Definition STYLES : list string := fold_left register _BASE sample.

(** [STYLES[key]] *)
Definition STYLES_get (key : string) : result ParagraphStyle :=
  if style_in key STYLES then Ok (style_named key) else Raise (KeyError key).

(** *** Glyph-safe sanitizer *)

Definition repl : list (str * str) :=
  [ ([8211], py "-"); ([8212], py "-");
    ([160], py " "); ([8239], py " ");
    ([173], py "-"); ([8288], []) ].

Definition keep_char (ch : N) : bool :=
  negb (category_C ch) || char_in ch [LF; TAB].

Definition decode_entities (txt : str) : str :=
  replace (py "&amp;") (py "&")
    (replace (py "&quot;") [QUOTE]
       (replace (py "&nbsp;") (py " ") txt)).

Definition _sanitize (txt : str) : str :=
  let txt := fold_left (fun t bg => replace (fst bg) (snd bg) t) repl txt in
  let txt := filter keep_char txt in
  decode_entities txt.

(** *** Table helper *)

Definition _table (rows : list (list str)) : result Flowable :=
  body <- STYLES_get "Body" ;;
  Ok (Table (map (map (fun cell => Paragraph cell body)) rows)).

(** *** Markdown to flowables *)

Definition flush_code (st : ScanState) : result ScanState :=
  match code_buf st with
  | [] => Ok st
  | buf =>
      code <- STYLES_get "Code" ;;
      Ok (mkState (flow st ++ [Paragraph (code_markup buf) code])
            [] (table_buf st) (in_code st))
  end.

Definition flush_table (st : ScanState) : result ScanState :=
  match table_buf st with
  | [] => Ok st
  | buf =>
      tbl <- _table buf ;;
      Ok (mkState (flow st ++ [tbl; Spacer]) (code_buf st) [] (in_code st))
  end.

(** [Paragraph(text, STYLES[key])] appended to the story. *)
Definition emit (text : str) (key : string) (st : ScanState)
  : result ScanState :=
  sty <- STYLES_get key ;;
  Ok (append_flow [Paragraph text sty] st).

(** The body of the loop, for one raw line. *)
Definition process_line (st : ScanState) (raw : str) : result ScanState :=
  let line := _sanitize raw in
  if is_fence line then
    let st := mkState (flow st) (code_buf st) (table_buf st)
                (negb (in_code st)) in
    if negb (in_code st) then flush_code st else Ok st
  else if in_code st then
    Ok (mkState (flow st) (code_buf st ++ [line]) (table_buf st) (in_code st))
  else if is_table_line line then
    let cells := table_cells line in
    if is_separator_row cells then Ok st
    else Ok (mkState (flow st) (code_buf st)
               (table_buf st ++ [map _fmt_inline cells]) (in_code st))
  else
    st <- flush_table st ;;
    if startswith line (py "# ") then
      emit (_fmt_inline (skipn 2 line)) "H1" st
    else if startswith line (py "## ") then
      emit (_fmt_inline (skipn 3 line)) "H2" st
    else if startswith line (py "### ") then
      emit (_fmt_inline (skipn 4 line)) "H3" st
    else if startswith line (py "- ") || startswith line (py "* ") then
      emit (BULLET :: SPACE :: _fmt_inline (skipn 2 line)) "Body" st
    else if match strip line with [] => true | _ => false end then
      Ok (append_flow [Spacer] st)
    else
      emit (_fmt_inline line) "Body" st.

(** The loop over the lines. *)
Fixpoint scan (lines : list str) (st : ScanState) : result ScanState :=
  match lines with
  | [] => Ok st
  | raw :: rest => st' <- process_line st raw ;; scan rest st'
  end.

(** The two flushes after the loop, and the story returned. *)
Definition finish (st : ScanState) : result (list Flowable) :=
  st <- flush_table st ;;
  st <- flush_code st ;;
  Ok (flow st).

Definition run (lines : list str) : result (list Flowable) :=
  st <- scan lines initial ;; finish st.

Definition markdown_to_flowables (md : str) : result (list Flowable) :=
  run (splitlines (strip md) ++ [[]]).

End Scanner.

(** The code block of the specification: one paragraph in the code style
    whose markup is built from the buffered lines. *)
Definition CodeBlock (lines : list str) : Flowable :=
  Paragraph (code_markup lines) (style_named "Code").

(** The table of the specification: every cell a body paragraph. *)
Definition TableBlock (rows : list (list str)) : Flowable :=
  Table (map (map BodyParagraph) rows).

(** What a flush of the table buffer adds to the story. *)
Definition pending_table (buf : list (list str)) : list Flowable :=
  match buf with
  | [] => []
  | _ => [TableBlock buf; Spacer]
  end.

(** What a flush of the code buffer adds to the story. *)
Definition pending_code (buf : list str) : list Flowable :=
  match buf with
  | [] => []
  | _ => [CodeBlock buf]
  end.

(** What a line that is neither a fence, nor in a code block, nor a table
    line appends after the table flush. *)
Definition block_of_line (line : str) : Flowable :=
  if startswith line (py "# ")
  then Heading 1 (_fmt_inline (skipn 2 line))
  else if startswith line (py "## ")
  then Heading 2 (_fmt_inline (skipn 3 line))
  else if startswith line (py "### ")
  then Heading 3 (_fmt_inline (skipn 4 line))
  else if startswith line (py "- ") || startswith line (py "* ")
  then ListItem (_fmt_inline (skipn 2 line))
  else if match strip line with [] => true | _ => false end then Spacer
  else BodyParagraph (_fmt_inline line).

(** Every table of a story is directly followed by a spacer. *)
Definition tables_spaced (fl : list Flowable) : Prop :=
  forall i rows,
    nth_error fl i = Some (Table rows) -> nth_error fl (S i) = Some Spacer.

(** The table cells as the specification words them: at most one leading
    and at most one trailing pipe are removed before the split. *)
Definition strip_one_pipe (s : str) : str :=
  let s := match s with
           | c :: s' => if c =? PIPE then s' else s
           | [] => []
           end in
  match rev s with
  | c :: r => if c =? PIPE then rev r else s
  | [] => []
  end.

Definition cells_one_pipe (line : str) : list str :=
  map strip (split_on PIPE (strip_one_pipe line)).

(** A character that is none of the keys of the replacement table of
    [_sanitize], in the order the table is gone through. *)
Definition glyph_free (c : N) : Prop :=
  c <> 8288 /\ (c <> 173 /\ (c <> 8239 /\ (c <> 160 /\
  (c <> 8212 /\ (c <> 8211 /\ True))))).

(** A line that does not open or close a code block. *)
Definition no_fence {unicodedata : UnicodeData} (raw : str) : Prop :=
  is_fence (_sanitize raw) = false.

Definition not_code (b : Flowable) : bool := negb (isCode b).

(** A text given by its lines, joined by line feeds. *)
Definition text_of_lines (lines : list string) : str :=
  join [LF] (map py lines).

(** The example of the module's documentation. *)
Definition demo : str :=
  text_of_lines
    [ "### Demo";
      "| **Bold** | *Italic* |";
      "|----------|----------|";
      "| cell A   | cell B   |" ]%string.

(** The scanner and the sanitizer with the table [ucd] and ReportLab's
    sample sheet, for closed examples. *)
Definition to_blocks : str -> result (list Flowable) :=
  markdown_to_flowables (unicodedata := ucd) (stylesheet := reportlab_sample).

Definition sanitize : str -> str := _sanitize (unicodedata := ucd).

Definition step : ScanState -> str -> result ScanState :=
  process_line (unicodedata := ucd) (stylesheet := reportlab_sample).

(** The input on which a code block overtakes a table. *)
Definition table_then_code : str :=
  text_of_lines [ "|a|b|"; "```"; "code"; "```" ]%string.

(** An input whose fence is never closed. *)
Definition open_fence : str :=
  text_of_lines [ "```"; "code line" ]%string.

(** Further characters and line classes used in the properties below. *)
Definition APOSTROPHE : N := 39.
Definition STAR : N := 42.
Definition LESS : N := 60.
Definition GREATER : N := 62.

(** A line the loop treats as a table row when it is outside a code
    block. *)
Definition table_row {unicodedata : UnicodeData} (raw : str) : Prop :=
  is_fence (_sanitize raw) = false /\ is_table_line (_sanitize raw) = true.

(** A line the loop turns into one block when it is outside a code block. *)
Definition plain_line {unicodedata : UnicodeData} (raw : str) : Prop :=
  is_fence (_sanitize raw) = false /\ is_table_line (_sanitize raw) = false.

(** The separator test of the loop on a raw line, and the row the loop
    buffers for a raw line. *)
Definition separator_line {unicodedata : UnicodeData} (raw : str) : bool :=
  is_separator_row (table_cells (_sanitize raw)).

Definition buffered_row {unicodedata : UnicodeData} (raw : str) : list str :=
  map _fmt_inline (table_cells (_sanitize raw)).

(** The number of fence lines among [lines]. *)
Definition fence_count {unicodedata : UnicodeData} (lines : list str) : nat :=
  List.length (filter (fun raw => is_fence (_sanitize raw)) lines).

(** The number of asterisks of a text. *)
Definition stars (s : str) : nat := List.length (filter (N.eqb STAR) s).

(** ** Python strings: lemmas *)

Lemma replace_from_Forall (P : N -> Prop) old new :
  Forall P new ->
  forall s skip, Forall P s -> Forall P (replace_from old new s skip).
Proof.
  intros Hnew s. induction s as [|c s IH]; intros skip Hs; cbn [replace_from].
  - constructor.
  - inversion Hs as [|? ? Hc Hs']; subst.
    destruct skip as [|k].
    + destruct (startswith (c :: s) old).
      * apply Forall_app. split; [assumption | apply IH; assumption].
      * constructor; [assumption | apply IH; assumption].
    + apply IH; assumption.
Qed.

Lemma replace_Forall (P : N -> Prop) old new s :
  old <> [] -> Forall P new -> Forall P s -> Forall P (replace old new s).
Proof.
  intros Hold Hnew Hs. destruct old as [|o old']; [congruence|].
  unfold replace. apply replace_from_Forall; assumption.
Qed.

(** Replacing a one-character string that does not occur changes nothing. *)
Lemma replace_char_absent k new s :
  Forall (fun c => c <> k) s -> replace [k] new s = s.
Proof.
  unfold replace. induction s as [|c s IH]; intro H.
  - reflexivity.
  - inversion H as [|? ? Hc Hs]; subst.
    cbn [replace_from startswith]. rewrite andb_true_r.
    destruct (N.eqb_spec k c) as [->|_]; [congruence|].
    f_equal. apply IH; assumption.
Qed.

(** After replacing a one-character string by text that does not hold it,
    the character is gone, and what held of every other character and of
    the new text holds of the result. *)
Lemma replace_char_clean (P : N -> Prop) k new s :
  Forall (fun c => c <> k /\ P c) new ->
  Forall P s ->
  Forall (fun c => c <> k /\ P c) (replace [k] new s).
Proof.
  intros Hnew. unfold replace. induction s as [|c s IH]; intro H.
  - constructor.
  - inversion H as [|? ? Hc Hs]; subst.
    cbn [replace_from startswith]. rewrite andb_true_r.
    destruct (N.eqb_spec k c) as [->|Hne]; cbn [List.length Nat.sub].
    + apply Forall_app. split; [assumption | apply IH; assumption].
    + constructor; [split; [congruence | assumption] | apply IH; assumption].
Qed.

(** A string that does not contain [old] is left as it is. *)
Lemma replace_absent old new s :
  contains old s = false -> replace old new s = s.
Proof.
  destruct old as [|o old'].
  - destruct s; discriminate.
  - unfold replace. induction s as [|c s IH]; intro H.
    + reflexivity.
    + cbn [contains] in H. apply orb_false_iff in H as [H1 H2].
      cbn [replace_from]. rewrite H1. f_equal. apply IH; assumption.
Qed.

(** A character that does not open [old] is passed over. *)
Lemma replace_cons_other old new c s :
  match old with [] => False | o :: _ => o <> c end ->
  replace old new (c :: s) = c :: replace old new s.
Proof.
  destruct old as [|o old']; [contradiction|]. intro H.
  unfold replace. cbn [replace_from startswith].
  destruct (N.eqb_spec o c) as [->|_]; [congruence | reflexivity].
Qed.

Lemma filter_all (p : N -> bool) s :
  Forall (fun c => p c = true) s -> filter p s = s.
Proof.
  induction 1 as [|c s Hc _ IH]; simpl.
  - reflexivity.
  - rewrite Hc, IH. reflexivity.
Qed.

Lemma filter_Forall_both (P : N -> Prop) (p : N -> bool) s :
  Forall P s -> Forall (fun c => P c /\ p c = true) (filter p s).
Proof.
  induction 1 as [|c s Hc _ IH]; simpl.
  - constructor.
  - destruct (p c) eqn:E; [constructor; [split|]|]; assumption.
Qed.

(** [drop_leading] removes a run of characters that satisfy [p] and stops at
    the first that does not. *)
Lemma drop_leading_spec p s :
  exists run, s = run ++ drop_leading p s
              /\ forallb p run = true
              /\ match drop_leading p s with
                 | c :: _ => p c = false
                 | [] => True
                 end.
Proof.
  induction s as [|c s (run & E & Hrun & Hhd)]; simpl.
  - exists []. repeat split.
  - destruct (p c) eqn:Hc.
    + exists (c :: run). simpl. rewrite Hc, Hrun. repeat split; [|assumption].
      f_equal. assumption.
    + exists []. simpl. repeat split. assumption.
Qed.

(** [drop_trailing] removes a final run of characters that satisfy [p] and
    leaves a string whose last character does not. *)
Lemma drop_trailing_spec p s :
  exists run, s = drop_trailing p s ++ run
              /\ forallb p run = true
              /\ match rev (drop_trailing p s) with
                 | c :: _ => p c = false
                 | [] => True
                 end.
Proof.
  induction s as [|c s (run & E & Hrun & Hlast)]; simpl.
  - exists []. repeat split.
  - destruct (drop_trailing p s) as [|d t] eqn:Ed.
    + destruct (p c) eqn:Hc.
      * exists (c :: run). simpl. rewrite Hc, Hrun. simpl in E. subst s.
        repeat split.
      * exists run. simpl in *. subst s. repeat split; assumption.
    + exists run. split; [simpl; f_equal; assumption|]. split; [assumption|].
      change (rev (c :: d :: t)) with (rev (d :: t) ++ [c]).
      destruct (rev (d :: t)) as [|e r] eqn:Er.
      * apply (f_equal (@rev N)) in Er. rewrite rev_involutive in Er.
        discriminate.
      * simpl. assumption.
Qed.

Lemma drop_trailing_keeps_head p c s :
  p c = false -> exists t, drop_trailing p (c :: s) = c :: t.
Proof.
  intro Hc. simpl. destruct (drop_trailing p s) as [|d t].
  - rewrite Hc. exists []. reflexivity.
  - exists (d :: t). reflexivity.
Qed.

(** ** The scanner: lemmas *)

Section ScannerFacts.

Context {unicodedata : UnicodeData} {stylesheet : SampleStyleSheet}.

(** *** Every style the scanner asks for is in the sheet *)

Lemma style_in_app key a b :
  style_in key (a ++ b) = style_in key a || style_in key b.
Proof. apply existsb_app. Qed.

Lemma register_keeps key sheet name :
  style_in key sheet = true -> style_in key (register sheet name) = true.
Proof.
  intro H. unfold register. destruct (style_in name sheet); simpl.
  - assumption.
  - rewrite style_in_app, H. reflexivity.
Qed.

Lemma register_adds sheet name : style_in name (register sheet name) = true.
Proof.
  unfold register. destruct (style_in name sheet) eqn:E; simpl.
  - assumption.
  - rewrite style_in_app. simpl. rewrite String.eqb_refl.
    apply orb_true_iff. right. reflexivity.
Qed.

Lemma registered_all names : forall sheet key,
  style_in key sheet = true \/ In key names ->
  style_in key (fold_left register names sheet) = true.
Proof.
  induction names as [|n names IH]; intros sheet key [H|H]; simpl.
  - assumption.
  - contradiction.
  - apply IH. left. apply register_keeps. assumption.
  - apply IH. destruct H as [->|H].
    + left. apply register_adds.
    + right. assumption.
Qed.

Lemma STYLES_get_base key :
  In key _BASE -> STYLES_get key = Ok (style_named key).
Proof.
  intro H. unfold STYLES_get, STYLES.
  rewrite registered_all; [reflexivity | right; assumption].
Qed.

Lemma emit_ok text key st :
  In key _BASE ->
  emit text key st = Ok (append_flow [Paragraph text (style_named key)] st).
Proof.
  intro H. unfold emit. rewrite (STYLES_get_base key H).
  reflexivity.
Qed.

Lemma flush_table_ok st :
  flush_table st =
  Ok (mkState (flow st ++ pending_table (table_buf st))
        (code_buf st) [] (in_code st)).
Proof.
  unfold flush_table, _table. destruct st as [fl cb tb ic]; simpl.
  destruct tb as [|row tb]; simpl.
  - rewrite app_nil_r. reflexivity.
  - rewrite STYLES_get_base by (simpl; tauto). reflexivity.
Qed.

Lemma flush_code_ok st :
  flush_code st =
  Ok (mkState (flow st ++ pending_code (code_buf st))
        [] (table_buf st) (in_code st)).
Proof.
  unfold flush_code. destruct st as [fl cb tb ic]; simpl.
  destruct cb as [|l cb]; simpl.
  - rewrite app_nil_r. reflexivity.
  - rewrite STYLES_get_base by (simpl; tauto). reflexivity.
Qed.

Lemma finish_ok st :
  finish st =
  Ok (flow st ++ pending_table (table_buf st) ++ pending_code (code_buf st)).
Proof.
  unfold finish. rewrite flush_table_ok. simpl.
  rewrite flush_code_ok. simpl. rewrite app_assoc. reflexivity.
Qed.

(** *** One line *)

Lemma process_fence st raw :
  is_fence (_sanitize raw) = true ->
  process_line st raw =
  Ok (if in_code st
      then mkState (flow st ++ pending_code (code_buf st)) []
             (table_buf st) false
      else mkState (flow st) (code_buf st) (table_buf st) true).
Proof.
  intro H. unfold process_line. rewrite H.
  destruct st as [fl cb tb [|]]; cbn [in_code negb flow code_buf table_buf].
  - rewrite flush_code_ok. reflexivity.
  - reflexivity.
Qed.

Lemma process_in_code st raw :
  is_fence (_sanitize raw) = false ->
  in_code st = true ->
  process_line st raw =
  Ok (mkState (flow st) (code_buf st ++ [_sanitize raw]) (table_buf st) true).
Proof.
  intros H1 H2. unfold process_line. rewrite H1, H2. reflexivity.
Qed.

Lemma process_table_line st raw :
  is_fence (_sanitize raw) = false ->
  in_code st = false ->
  is_table_line (_sanitize raw) = true ->
  process_line st raw =
  Ok (if is_separator_row (table_cells (_sanitize raw)) then st
      else mkState (flow st) (code_buf st)
             (table_buf st ++ [map _fmt_inline (table_cells (_sanitize raw))])
             false).
Proof.
  intros H1 H2 H3. unfold process_line. rewrite H1, H2, H3.
  destruct (is_separator_row _); [reflexivity|]. reflexivity.
Qed.

Lemma process_plain_line st raw :
  is_fence (_sanitize raw) = false ->
  in_code st = false ->
  is_table_line (_sanitize raw) = false ->
  process_line st raw =
  Ok (mkState
        (flow st ++ pending_table (table_buf st)
           ++ [block_of_line (_sanitize raw)])
        (code_buf st) [] false).
Proof.
  intros H1 H2 H3. unfold process_line. rewrite H1, H2, H3.
  rewrite flush_table_ok. cbn [bind]. unfold block_of_line.
  repeat match goal with
         | |- context [if ?b then _ else _] => destruct b
         end;
    try rewrite emit_ok by (simpl; tauto);
    unfold append_flow; cbn [flow code_buf table_buf in_code];
    rewrite H2, <- app_assoc; reflexivity.
Qed.

(** *** Tables and spacers *)

Lemma tables_spaced_app a b :
  tables_spaced a -> tables_spaced b -> tables_spaced (a ++ b).
Proof.
  intros Ha Hb i rows H.
  destruct (Nat.lt_ge_cases i (List.length a)) as [Hi|Hi].
  - rewrite nth_error_app1 in H by assumption.
    specialize (Ha i rows H).
    assert (S i < List.length a)%nat
      by (apply nth_error_Some; rewrite Ha; discriminate).
    rewrite nth_error_app1; assumption.
  - rewrite nth_error_app2 in H by assumption.
    specialize (Hb _ rows H).
    rewrite nth_error_app2 by lia.
    replace (S i - List.length a)%nat with (S (i - List.length a)) by lia.
    assumption.
Qed.

Lemma tables_spaced_nil : tables_spaced [].
Proof. intros [|i] rows H; discriminate. Qed.

Lemma tables_spaced_one b : isTable b = false -> tables_spaced [b].
Proof.
  intros Hb [|[|i]] rows H; simpl in H; try discriminate.
  injection H as ->. discriminate.
Qed.

Lemma tables_spaced_pending_table buf : tables_spaced (pending_table buf).
Proof.
  destruct buf as [|r buf]; [apply tables_spaced_nil|].
  intros [|[|[|i]]] rows H; simpl in H; try discriminate. reflexivity.
Qed.

Lemma tables_spaced_pending_code buf : tables_spaced (pending_code buf).
Proof.
  destruct buf as [|l buf]; [apply tables_spaced_nil|].
  apply tables_spaced_one. reflexivity.
Qed.

Lemma block_of_line_not_table line : isTable (block_of_line line) = false.
Proof.
  unfold block_of_line.
  repeat match goal with
         | |- context [if ?b then _ else _] => destruct b
         end; reflexivity.
Qed.

Lemma block_of_line_not_code line : isCode (block_of_line line) = false.
Proof.
  unfold block_of_line.
  repeat match goal with
         | |- context [if ?b then _ else _] => destruct b
         end; reflexivity.
Qed.

(** The four cases cover every line: a line only ever appends to the
    story, and what it appends keeps tables and spacers together. *)
Lemma process_line_cases st raw :
  exists fs cb tb ic,
    process_line st raw = Ok (mkState (flow st ++ fs) cb tb ic)
    /\ tables_spaced fs.
Proof.
  destruct (is_fence (_sanitize raw)) eqn:H1.
  - rewrite process_fence by assumption. destruct (in_code st).
    + eexists _, _, _, _. split; [reflexivity|].
      apply tables_spaced_pending_code.
    + exists [], (code_buf st), (table_buf st), true.
      rewrite app_nil_r. split; [reflexivity | apply tables_spaced_nil].
  - destruct (in_code st) eqn:H2.
    + rewrite process_in_code by assumption.
      eexists [], _, _, _. rewrite app_nil_r.
      split; [reflexivity | apply tables_spaced_nil].
    + destruct (is_table_line (_sanitize raw)) eqn:H3.
      * rewrite process_table_line by assumption.
        destruct (is_separator_row _).
        -- exists [], (code_buf st), (table_buf st), (in_code st).
           rewrite app_nil_r.
           split; [destruct st; reflexivity | apply tables_spaced_nil].
        -- eexists [], _, _, _. rewrite app_nil_r.
           split; [reflexivity | apply tables_spaced_nil].
      * rewrite process_plain_line by assumption.
        eexists _, _, _, _. split; [reflexivity|].
        apply tables_spaced_app.
        -- apply tables_spaced_pending_table.
        -- apply tables_spaced_one, block_of_line_not_table.
Qed.

Lemma scan_app l1 : forall l2 st,
  scan (l1 ++ l2) st = (st' <- scan l1 st ;; scan l2 st').
Proof.
  induction l1 as [|l l1 IH]; intros l2 st; simpl.
  - reflexivity.
  - destruct (process_line st l) as [st'|e]; simpl; [apply IH | reflexivity].
Qed.

Lemma scan_total lines : forall st, exists st', scan lines st = Ok st'.
Proof.
  induction lines as [|l lines IH]; intro st; simpl.
  - exists st. reflexivity.
  - destruct (process_line_cases st l) as (fs & cb & tb & ic & E & _).
    rewrite E. simpl. apply IH.
Qed.

Lemma scan_tables_spaced lines : forall st st',
  scan lines st = Ok st' ->
  tables_spaced (flow st) -> tables_spaced (flow st').
Proof.
  induction lines as [|l lines IH]; intros st st' H Hst; simpl in H.
  - injection H as <-. assumption.
  - destruct (process_line_cases st l) as (fs & cb & tb & ic & E & Hfs).
    rewrite E in H. simpl in H. apply IH in H; [assumption|].
    simpl. apply tables_spaced_app; assumption.
Qed.

Lemma sanitize_nil : _sanitize [] = [].
Proof. reflexivity. Qed.

(** *** Runs of lines outside and inside a code block *)

Lemma pending_table_not_code buf : forallb not_code (pending_table buf) = true.
Proof. destruct buf; reflexivity. Qed.

Lemma pending_code_snoc buf l :
  pending_code (buf ++ [l]) = [CodeBlock (buf ++ [l])].
Proof. destruct buf; reflexivity. Qed.

Lemma scan_outside_code lines : forall st,
  Forall no_fence lines ->
  in_code st = false ->
  exists fs tb,
    scan lines st = Ok (mkState (flow st ++ fs) (code_buf st) tb false)
    /\ forallb not_code fs = true.
Proof.
  induction lines as [|l lines IH]; intros st Hl Hc.
  - exists [], (table_buf st). rewrite app_nil_r. split; [|reflexivity].
    destruct st; simpl in *; subst; reflexivity.
  - inversion Hl as [|? ? Hf Hl']; subst. cbn [scan].
    destruct (is_table_line (_sanitize l)) eqn:Ht.
    + rewrite process_table_line by assumption. cbn [bind].
      destruct (is_separator_row _).
      * apply IH; assumption.
      * destruct (IH (mkState (flow st) (code_buf st)
                        (table_buf st
                           ++ [map _fmt_inline (table_cells (_sanitize l))])
                        false) Hl' eq_refl) as (fs & tb & E & Hfs).
        exists fs, tb. split; assumption.
    + rewrite process_plain_line by assumption. cbn [bind].
      destruct (IH (mkState
                      (flow st ++ pending_table (table_buf st)
                         ++ [block_of_line (_sanitize l)])
                      (code_buf st) [] false) Hl' eq_refl)
        as (fs & tb & E & Hfs).
      cbn [flow code_buf] in E. rewrite <- app_assoc in E.
      eexists _, tb. split; [exact E|].
      rewrite !forallb_app, pending_table_not_code, Hfs.
      cbn [forallb]. unfold not_code at 1.
      rewrite block_of_line_not_code. reflexivity.
Qed.

Lemma scan_inside_code lines : forall st,
  Forall no_fence lines ->
  in_code st = true ->
  scan lines st =
  Ok (mkState (flow st) (code_buf st ++ map _sanitize lines)
        (table_buf st) true).
Proof.
  induction lines as [|l lines IH]; intros st Hl Hc.
  - simpl. rewrite app_nil_r.
    destruct st; simpl in *; subst; reflexivity.
  - inversion Hl as [|? ? Hf Hl']; subst. cbn [scan].
    rewrite process_in_code by assumption. cbn [bind].
    rewrite IH by (assumption || reflexivity).
    cbn [flow code_buf table_buf map]. rewrite <- app_assoc. reflexivity.
Qed.

(** *** Classification of a heading line *)

Lemma strip_keeps_head c s :
  is_space c = false -> exists t, strip (c :: s) = c :: t.
Proof.
  intro Hc. unfold strip, lstrip, rstrip. cbn [drop_leading]. rewrite Hc.
  apply drop_trailing_keeps_head. assumption.
Qed.

Lemma hash_line_not_fence s : is_fence (HASH :: s) = false.
Proof.
  unfold is_fence.
  destruct (strip_keeps_head HASH s eq_refl) as [t ->]. reflexivity.
Qed.

Lemma hash_line_not_table s : is_table_line (HASH :: s) = false.
Proof.
  unfold is_table_line. change (lstrip (HASH :: s)) with (HASH :: s).
  apply andb_false_r.
Qed.

(** *** The pipes at the ends of a table line *)

Lemma pipe_run run :
  forallb (fun c => char_in c (py "|")) run = true ->
  run = repeat PIPE (List.length run).
Proof.
  induction run as [|c run IH]; intro H; simpl.
  - reflexivity.
  - simpl in H. apply andb_true_iff in H as [Hc H].
    rewrite orb_false_r in Hc. apply N.eqb_eq in Hc. subst c.
    f_equal. apply IH. assumption.
Qed.

Lemma strip_pipes_spec s :
  exists a b,
    s = repeat PIPE a ++ strip_chars (py "|") s ++ repeat PIPE b
    /\ startswith (strip_chars (py "|") s) [PIPE] = false
    /\ startswith (rev (strip_chars (py "|") s)) [PIPE] = false.
Proof.
  unfold strip_chars.
  set (p := fun c => char_in c (py "|")).
  destruct (drop_leading_spec p s) as (r1 & E1 & H1 & _).
  destruct (drop_trailing_spec p (drop_leading p s)) as (r2 & E2 & H2 & Hl).
  destruct (drop_leading_spec p (drop_trailing p (drop_leading p s)))
    as (r3 & E3 & H3 & Hh).
  exists (List.length r1), (List.length r2).
  rewrite <- (pipe_run r1 H1), <- (pipe_run r2 H2).
  split; [rewrite <- E2; exact E1|].
  assert (Hpipe : forall c, p c = false -> (PIPE =? c) = false).
  { intros c Hc. unfold p, char_in in Hc. simpl in Hc.
    rewrite orb_false_r in Hc. rewrite N.eqb_sym. exact Hc. }
  split.
  - destruct (drop_trailing p (drop_leading p s)) as [|c t] eqn:Et;
      [reflexivity|].
    (* the head of what is left is the head of [drop_leading p s] *)
    destruct (drop_leading_spec p s) as (r & _ & _ & Hhd).
    rewrite E2 in Hhd. cbn [app] in Hhd.
    cbn [startswith]. rewrite (Hpipe c Hhd). reflexivity.
  - destruct (rev (drop_trailing p (drop_leading p s))) as [|c t];
      [reflexivity|].
    cbn [startswith]. rewrite (Hpipe c Hl). reflexivity.
Qed.

(** *** A second pass of the sanitizer *)

Lemma replace_glyphs_clean s :
  Forall glyph_free
    (fold_left (fun t bg => replace (fst bg) (snd bg) t) repl s).
Proof.
  unfold repl, glyph_free. cbn [fold_left fst snd].
  repeat (apply replace_char_clean;
          [ simpl;
            repeat first [ apply Forall_nil | apply Forall_cons
                         | discriminate | exact I | split ] | ]).
  apply Forall_forall. intros; exact I.
Qed.

Lemma replace_glyphs_id t :
  Forall glyph_free t ->
  fold_left (fun t bg => replace (fst bg) (snd bg) t) repl t = t.
Proof.
  intro H. unfold repl. cbn [fold_left fst snd].
  rewrite (replace_char_absent 8211), (replace_char_absent 8212),
    (replace_char_absent 160), (replace_char_absent 8239),
    (replace_char_absent 173), (replace_char_absent 8288);
    [reflexivity | ..];
    (eapply Forall_impl; [|exact H]); unfold glyph_free; cbv beta; tauto.
Qed.

(** Sanitized text holds no key of the replacement table and no character
    the filter removes. *)
Lemma sanitize_clean s :
  category_C SPACE = false ->
  category_C QUOTE = false ->
  category_C AMP = false ->
  Forall (fun c => glyph_free c /\ keep_char c = true) (_sanitize s).
Proof.
  intros Hsp Hq Ha. unfold _sanitize, decode_entities.
  assert (Hkeep : forall c, category_C c = false -> keep_char c = true)
    by (intros c Hc; unfold keep_char; rewrite Hc; reflexivity).
  repeat (apply replace_Forall;
          [ discriminate
          | simpl; repeat constructor; try discriminate;
            apply Hkeep; assumption
          | ]).
  apply filter_Forall_both, replace_glyphs_clean.
Qed.

Lemma sanitize_again s :
  category_C SPACE = false ->
  category_C QUOTE = false ->
  category_C AMP = false ->
  _sanitize (_sanitize s) = decode_entities (_sanitize s).
Proof.
  intros Hsp Hq Ha.
  pose proof (sanitize_clean s Hsp Hq Ha) as H.
  set (t := _sanitize s) in *. unfold _sanitize at 1.
  rewrite replace_glyphs_id
    by (eapply Forall_impl; [|exact H]; intros c [Hg Hk]; assumption).
  rewrite filter_all
    by (eapply Forall_impl; [|exact H]; intros c [Hg Hk]; assumption).
  reflexivity.
Qed.

(** A character the sanitizer has nothing to do with stays in front. *)
Lemma sanitize_cons c s :
  glyph_free c -> category_C c = false -> c <> AMP ->
  _sanitize (c :: s) = c :: _sanitize s.
Proof.
  intros Hg Hc Ha. unfold glyph_free in Hg.
  unfold _sanitize, repl, decode_entities. cbn [fold_left fst snd].
  rewrite (replace_cons_other [8211]), (replace_cons_other [8212]),
    (replace_cons_other [160]), (replace_cons_other [8239]),
    (replace_cons_other [173]), (replace_cons_other [8288])
    by (cbn; intro; subst; tauto).
  cbn [filter]. unfold keep_char at 1. rewrite Hc. cbn [negb orb].
  rewrite (replace_cons_other (py "&nbsp;")),
    (replace_cons_other (py "&quot;")), (replace_cons_other (py "&amp;"))
    by (cbn; intro; subst; apply Ha; reflexivity).
  reflexivity.
Qed.

Lemma sanitize_heading_prefix level rest :
  category_C HASH = false ->
  category_C SPACE = false ->
  _sanitize (repeat HASH level ++ SPACE :: rest)
  = repeat HASH level ++ SPACE :: _sanitize rest.
Proof.
  intros Hh Hs.
  assert (Hfree : forall c, (c = HASH \/ c = SPACE) -> glyph_free c /\ c <> AMP)
    by (intros c [->| ->]; unfold glyph_free; repeat split; discriminate).
  induction level as [|n IH]; cbn [repeat app].
  - apply sanitize_cons; [apply Hfree; tauto | assumption | apply Hfree; tauto].
  - rewrite sanitize_cons, IH;
      [reflexivity | apply Hfree; tauto | assumption | apply Hfree; tauto].
Qed.

(** Outside a code block, a line that reads, once sanitized, as one, two or
    three hashes, a space and a rest appends the heading of that level. *)
Lemma heading_of_sanitized_line (st : ScanState) (raw : str) (level : nat)
    (rest : str) :
  in_code st = false ->
  (1 <= level <= 3)%nat ->
  _sanitize raw = repeat HASH level ++ SPACE :: rest ->
  process_line st raw =
  Ok (mkState
        (flow st ++ pending_table (table_buf st)
           ++ [Heading level (_fmt_inline rest)])
        (code_buf st) [] false).
Proof.
  intros Hc Hlevel E.
  assert (Hhash : exists s, _sanitize raw = HASH :: s).
  { rewrite E. destruct level; [lia|]. simpl. eexists. reflexivity. }
  destruct Hhash as [s Hs].
  rewrite process_plain_line;
    [ | rewrite Hs; apply hash_line_not_fence | assumption
      | rewrite Hs; apply hash_line_not_table ].
  rewrite E. destruct level as [|[|[|[|n]]]]; try lia; reflexivity.
Qed.

(** *** The claims about every input *)

(** C4, amended.  When the Unicode table does not put the space, the
    double quote and the ampersand in a category C, and the sanitized text
    holds none of the three entities the sanitizer decodes, sanitizing it
    again returns it unchanged. *)
Theorem sanitize_idempotent_without_entities (s : str) :
  category_C SPACE = false ->
  category_C QUOTE = false ->
  category_C AMP = false ->
  contains (py "&nbsp;") (_sanitize s) = false ->
  contains (py "&quot;") (_sanitize s) = false ->
  contains (py "&amp;") (_sanitize s) = false ->
  _sanitize (_sanitize s) = _sanitize s.
Proof.
  intros Hsp Hq Ha H1 H2 H3.
  rewrite sanitize_again by assumption. unfold decode_entities.
  rewrite (replace_absent (py "&nbsp;")) by assumption.
  rewrite (replace_absent (py "&quot;")) by assumption.
  apply replace_absent. assumption.
Qed.

(** C5, amended.  For a line classified as a table row (outside a code
    block, not a fence, with a pipe, not starting with a hash after the
    left trim), the trimmed line is a run of pipes, a core that neither
    starts nor ends with a pipe, and a run of pipes; the cells are the
    fields of the core between pipes, each trimmed: all the pipes at both
    ends are removed, not one.  A separator row leaves the state as it is,
    any other row adds its formatted cells to the table buffer. *)
Theorem table_row_cells (st : ScanState) (raw : str) :
  in_code st = false ->
  is_fence (_sanitize raw) = false ->
  is_table_line (_sanitize raw) = true ->
  exists a core b,
    strip (_sanitize raw) = repeat PIPE a ++ core ++ repeat PIPE b
    /\ startswith core [PIPE] = false
    /\ startswith (rev core) [PIPE] = false
    /\ table_cells (_sanitize raw) = map strip (split_on PIPE core)
    /\ process_line st raw =
       Ok (if is_separator_row (map strip (split_on PIPE core)) then st
           else mkState (flow st) (code_buf st)
                  (table_buf st
                     ++ [map _fmt_inline (map strip (split_on PIPE core))])
                  false).
Proof.
  intros Hc Hf Ht.
  destruct (strip_pipes_spec (strip (_sanitize raw)))
    as (a & b & E & Hhd & Hlast).
  exists a, (strip_chars (py "|") (strip (_sanitize raw))), b.
  repeat split; try assumption.
  apply process_table_line; assumption.
Qed.

(** C6.  Outside a code block, a line made of one, two or three hashes, a
    space and a rest appends exactly one block after the pending table: the
    heading whose level is the number of hashes and whose text is the
    sanitized, formatted rest.  The Unicode table is only asked not to put
    the hash and the space in a category C. *)
Theorem heading_line (st : ScanState) (level : nat) (rest : str) :
  category_C HASH = false ->
  category_C SPACE = false ->
  in_code st = false ->
  (1 <= level <= 3)%nat ->
  process_line st (repeat HASH level ++ SPACE :: rest) =
  Ok (mkState
        (flow st ++ pending_table (table_buf st)
           ++ [Heading level (_fmt_inline (_sanitize rest))])
        (code_buf st) [] false).
Proof.
  intros Hh Hs Hc Hlevel.
  apply heading_of_sanitized_line; try assumption.
  apply sanitize_heading_prefix; assumption.
Qed.

(** C7, amended.  When the lines of the trimmed input are lines without a
    fence, then a fence, then lines without a fence, the story ends with
    its only code block, and the lines of that block are the sanitized
    lines after the fence followed by the empty line added after the
    split. *)
Theorem unterminated_fence (md : str) (pre : list str) (fence : str)
    (post : list str) :
  splitlines (strip md) = pre ++ fence :: post ->
  Forall no_fence pre ->
  is_fence (_sanitize fence) = true ->
  Forall no_fence post ->
  exists other,
    markdown_to_flowables md =
    Ok (other ++ [CodeBlock (map _sanitize post ++ [[]])])
    /\ forallb not_code other = true.
Proof.
  intros E Hpre Hfence Hpost.
  unfold markdown_to_flowables, run. rewrite E, <- app_assoc.
  cbn [app]. rewrite scan_app.
  destruct (scan_outside_code pre initial Hpre eq_refl)
    as (fs & tb & Es & Hfs).
  rewrite Es. cbn [bind scan flow code_buf initial app].
  rewrite process_fence by assumption.
  cbn [bind in_code flow code_buf table_buf].
  rewrite scan_inside_code;
    [ | apply Forall_app; split; [assumption | repeat constructor]
      | reflexivity ].
  cbn [bind flow code_buf table_buf app]. rewrite finish_ok.
  cbn [flow code_buf table_buf].
  rewrite map_app. cbn [map]. rewrite sanitize_nil, pending_code_snoc.
  exists (fs ++ pending_table tb). rewrite <- app_assoc.
  split; [reflexivity|].
  rewrite forallb_app, Hfs, pending_table_not_code. reflexivity.
Qed.

(** C8.  The scanner is total: for every input string
    [markdown_to_flowables] raises no exception and returns a block
    sequence.  The style lookups, the only operations of the loop that
    can raise, all succeed whatever the sample style sheet holds. *)
Theorem markdown_to_flowables_total (md : str) :
  exists fl, markdown_to_flowables md = Ok fl.
Proof.
  unfold markdown_to_flowables, run.
  destruct (scan_total (splitlines (strip md) ++ [[]]) initial) as [st E].
  rewrite E. simpl. rewrite finish_ok. eexists. reflexivity.
Qed.

(** C9.  For every input the story is returned, and each table in it is
    directly followed by a spacer. *)
Theorem table_followed_by_spacer (md : str) :
  exists fl,
    markdown_to_flowables md = Ok fl
    /\ forall i rows,
         nth_error fl i = Some (Table rows) ->
         nth_error fl (S i) = Some Spacer.
Proof.
  unfold markdown_to_flowables, run.
  destruct (scan_total (splitlines (strip md) ++ [[]]) initial) as [st E].
  rewrite E. simpl. rewrite finish_ok. eexists. split; [reflexivity|].
  apply scan_tables_spaced in E; [|apply tables_spaced_nil].
  change (tables_spaced
            (flow st ++ pending_table (table_buf st)
               ++ pending_code (code_buf st))).
  repeat apply tables_spaced_app;
    auto using tables_spaced_pending_table, tables_spaced_pending_code.
Qed.

(** C10.  For every input string the story returned is not empty, and for
    the empty string it is exactly one spacer: the empty line added after
    the split always leaves a block. *)
Theorem markdown_to_flowables_nonempty :
  (forall md, exists fl, markdown_to_flowables md = Ok fl /\ fl <> [])
  /\ markdown_to_flowables [] = Ok [Spacer].
Proof.
  split; [|reflexivity].
  intro md. unfold markdown_to_flowables, run. rewrite scan_app.
  destruct (scan_total (splitlines (strip md)) initial) as [st E].
  rewrite E. cbn [bind scan].
  destruct (in_code st) eqn:Hc.
  - rewrite process_in_code by (assumption || reflexivity).
    cbn [bind]. rewrite finish_ok. eexists. split; [reflexivity|].
    cbn [flow code_buf table_buf]. intro H.
    apply app_eq_nil in H as [_ H]. apply app_eq_nil in H as [_ H].
    destruct (code_buf st); discriminate.
  - rewrite process_plain_line by (assumption || reflexivity).
    cbn [bind]. rewrite finish_ok. eexists. split; [reflexivity|].
    cbn [flow]. intro H.
    apply app_eq_nil in H as [H _]. apply app_eq_nil in H as [_ H].
    apply app_eq_nil in H as [_ H]. discriminate.
Qed.

End ScannerFacts.

(** ** The examples of the specification *)

(** C1.  On ["**Bold** and *italic*"] the formatter returns
    [<b>\1</b> and <i>\1</i>]: each emphasised text is replaced by a
    backslash and the digit 1, because the replacement templates hold an
    escaped backslash where a group reference was meant.  Neither the word
    Bold nor the word italic is in the output. *)
Theorem fmt_inline_drops_emphasised_text :
  _fmt_inline (py "**Bold** and *italic*") = py "<b>\1</b> and <i>\1</i>"
  /\ contains (py "Bold") (_fmt_inline (py "**Bold** and *italic*")) = false
  /\ contains (py "italic") (_fmt_inline (py "**Bold** and *italic*")) = false.
Proof. repeat split; vm_compute; reflexivity. Qed.

(** With a group reference in the template the same substitution keeps the
    text. *)
Example re_sub_with_group_reference :
  re_sub_emphasis (py "**") (py "<b>\1</b>") (py "**Bold** and *italic*")
  = py "<b>Bold</b> and *italic*".
Proof. vm_compute. reflexivity. Qed.

(** C2, as stated, fails: the example yields four blocks, not two. *)
Lemma demo_not_two_blocks :
  (exists fl, to_blocks demo = Ok fl /\ List.length fl = 4%nat)
  /\ ~ (exists b1 b2, to_blocks demo = Ok [b1; b2]).
Proof.
  split.
  - eexists. split; vm_compute; reflexivity.
  - intros (b1 & b2 & E). vm_compute in E. discriminate.
Qed.

(** C2, amended.  The example yields the level-3 heading [Demo], one table
    whose rows are the formatted cells of the header row and the cells
    [cell A], [cell B], the spacer of the table flush and the spacer of the
    empty line added after the split. *)
Theorem demo_blocks :
  to_blocks demo =
  Ok [ Heading 3 (py "Demo");
       TableBlock [ [_fmt_inline (py "**Bold**"); _fmt_inline (py "*Italic*")];
                    [py "cell A"; py "cell B"] ];
       Spacer; Spacer ].
Proof. vm_compute. reflexivity. Qed.

(** C3.  On a table row followed by a closed code block, the closing fence
    appends the code block while the row is still in the table buffer, and
    the table comes out after the code block that followed it. *)
Theorem code_block_overtakes_table :
  scan (unicodedata := ucd) (stylesheet := reportlab_sample)
    (splitlines (strip table_then_code)) initial
  = Ok (mkState [CodeBlock [py "code"]] [] [[py "a"; py "b"]] false)
  /\ to_blocks table_then_code =
     Ok [ CodeBlock [py "code"]; TableBlock [[py "a"; py "b"]];
          Spacer; Spacer ].
Proof. split; vm_compute; reflexivity. Qed.

(** C4, as stated, fails: an encoded ampersand before [amp;] is decoded
    once by each pass. *)
Lemma sanitize_not_idempotent :
  sanitize (py "&amp;amp;") = py "&amp;"
  /\ sanitize (sanitize (py "&amp;amp;")) = py "&"
  /\ sanitize (sanitize (py "&amp;amp;")) <> sanitize (py "&amp;amp;").
Proof.
  split; [vm_compute; reflexivity|].
  split; [vm_compute; reflexivity | vm_compute; discriminate].
Qed.

Lemma sanitize_idempotent_without_entities_witness :
  sanitize (py "a&amp;b") = py "a&b"
  /\ sanitize (sanitize (py "a&amp;b")) = sanitize (py "a&amp;b").
Proof.
  split; [reflexivity|].
  apply (sanitize_idempotent_without_entities (unicodedata := ucd)
           (py "a&amp;b")); reflexivity.
Defined.

(** C5, as stated, fails: with one pipe removed at each end, the line
    [||a|b||] would keep an empty cell at each end; the scanner removes every
    pipe at both ends and keeps two cells. *)
Lemma doubled_pipes_lose_empty_cells :
  cells_one_pipe (py "||a|b||") = [[]; py "a"; py "b"; []]
  /\ table_cells (py "||a|b||") = [py "a"; py "b"]
  /\ table_cells (py "||a|b||") <> cells_one_pipe (py "||a|b||").
Proof.
  split; [vm_compute; reflexivity|].
  split; [vm_compute; reflexivity | vm_compute; discriminate].
Qed.

Lemma table_row_cells_witness :
  exists a core b,
    strip (sanitize (py "||a|b||")) = repeat PIPE a ++ core ++ repeat PIPE b
    /\ startswith core [PIPE] = false
    /\ startswith (rev core) [PIPE] = false
    /\ table_cells (sanitize (py "||a|b||")) = map strip (split_on PIPE core)
    /\ step initial (py "||a|b||") =
       Ok (if is_separator_row (map strip (split_on PIPE core)) then initial
           else mkState (flow initial) (code_buf initial)
                  (table_buf initial
                     ++ [map _fmt_inline (map strip (split_on PIPE core))])
                  false).
Proof.
  apply (table_row_cells (unicodedata := ucd) (stylesheet := reportlab_sample)
           initial (py "||a|b||")); reflexivity.
Defined.

Lemma heading_line_witness :
  step initial (py "### Title") =
  Ok (mkState [Heading 3 (py "Title")] [] [] false)
  /\ to_blocks (py "### Title") = Ok [Heading 3 (py "Title"); Spacer].
Proof.
  split; [|reflexivity].
  apply (heading_line (unicodedata := ucd) (stylesheet := reportlab_sample)
           initial 3 (py "Title"));
    [reflexivity | reflexivity | reflexivity | lia].
Defined.

(** C7, as stated, fails: the code block of an unclosed fence holds one line
    more than the input has after the fence. *)
Lemma open_fence_gains_a_line :
  to_blocks open_fence = Ok [CodeBlock [py "code line"; []]]
  /\ to_blocks open_fence <> Ok [CodeBlock [py "code line"]].
Proof. split; vm_compute; [reflexivity | discriminate]. Qed.

Lemma unterminated_fence_witness :
  exists other,
    to_blocks open_fence =
    Ok (other ++ [CodeBlock (map sanitize [py "code line"] ++ [[]])])
    /\ forallb not_code other = true.
Proof.
  apply (unterminated_fence (unicodedata := ucd)
           (stylesheet := reportlab_sample)
           open_fence [] (py "```") [py "code line"]);
    [reflexivity | constructor | reflexivity | repeat constructor].
Defined.

Lemma table_followed_by_spacer_witness :
  exists fl,
    to_blocks (py "|a|b|") = Ok fl
    /\ nth_error fl 0 = Some (TableBlock [[py "a"; py "b"]])
    /\ nth_error fl 1 = Some Spacer.
Proof.
  destruct (table_followed_by_spacer (unicodedata := ucd)
              (stylesheet := reportlab_sample) (py "|a|b|")) as (fl & E & H).
  exists fl. split; [exact E|].
  assert (H0 : nth_error fl 0 = Some (TableBlock [[py "a"; py "b"]])).
  { vm_compute in E. injection E as <-. reflexivity. }
  split; [exact H0 | exact (H _ _ H0)].
Defined.

(** ** Further properties of the sanitizer *)

Section SanitizerProperties.

Context {unicodedata : UnicodeData}.

Lemma replace_char_app k new a b :
  replace [k] new (a ++ b) = replace [k] new a ++ replace [k] new b.
Proof.
  unfold replace. induction a as [|c a IH]; [reflexivity|].
  cbn [app replace_from startswith List.length Nat.sub].
  rewrite andb_true_r, IH.
  destruct (k =? c); [apply app_assoc | reflexivity].
Qed.

Lemma glyph_pass_app a b :
  fold_left (fun t bg => replace (fst bg) (snd bg) t) repl (a ++ b)
  = fold_left (fun t bg => replace (fst bg) (snd bg) t) repl a
    ++ fold_left (fun t bg => replace (fst bg) (snd bg) t) repl b.
Proof.
  unfold repl. cbn [fold_left fst snd].
  rewrite !replace_char_app. reflexivity.
Qed.

Lemma glyph_pass_no_amp s :
  Forall (fun c => c <> AMP) s ->
  Forall (fun c => c <> AMP)
    (fold_left (fun t bg => replace (fst bg) (snd bg) t) repl s).
Proof.
  intro H. unfold repl. cbn [fold_left fst snd].
  repeat (apply replace_Forall;
          [ discriminate
          | simpl; repeat constructor; discriminate
          | ]).
  assumption.
Qed.

Lemma filter_keeps_Forall (P : N -> Prop) (p : N -> bool) s :
  Forall P s -> Forall P (filter p s).
Proof.
  intro H. apply Forall_forall. intros c Hc.
  apply filter_In in Hc as [Hc _].
  rewrite Forall_forall in H. apply H. assumption.
Qed.

Lemma decode_entities_app x y :
  Forall (fun c => c <> AMP) x ->
  decode_entities (x ++ y) = x ++ decode_entities y.
Proof.
  unfold decode_entities.
  induction 1 as [|c x Hc _ IH]; [reflexivity|]. cbn [app].
  rewrite (replace_cons_other (py "&nbsp;")),
    (replace_cons_other (py "&quot;")), (replace_cons_other (py "&amp;"))
    by (cbn; intro; subst; apply Hc; reflexivity).
  rewrite IH. reflexivity.
Qed.

Lemma decode_entities_no_amp x :
  Forall (fun c => c <> AMP) x -> decode_entities x = x.
Proof.
  intro H. rewrite <- (app_nil_r x) at 1.
  rewrite decode_entities_app by assumption. apply app_nil_r.
Qed.

(** X1.  Whatever the Unicode table, sanitized text holds none of the six
    glyphs of the replacement table: no en dash, em dash, no-break space,
    narrow no-break space, soft hyphen or word joiner. *)
Theorem sanitize_has_no_table_glyph (s : str) (c : N) :
  In c (_sanitize s) ->
  c <> 8211 /\ c <> 8212 /\ c <> 160 /\ c <> 8239 /\ c <> 173 /\ c <> 8288.
Proof.
  assert (H : Forall glyph_free (_sanitize s)).
  { unfold _sanitize, decode_entities.
    repeat (apply replace_Forall;
            [ discriminate
            | simpl; unfold glyph_free;
              repeat first [ apply Forall_nil | apply Forall_cons
                           | discriminate | exact I | split ]
            | ]).
    apply filter_keeps_Forall, replace_glyphs_clean. }
  intro Hc. rewrite Forall_forall in H. specialize (H c Hc).
  unfold glyph_free in H. tauto.
Qed.

(** X2.  When the Unicode table does not put the space, the double quote
    and the ampersand in a category C, the only characters of a category C
    left in sanitized text are line feeds and tabs. *)
Theorem sanitize_has_no_control (s : str) (c : N) :
  category_C SPACE = false ->
  category_C QUOTE = false ->
  category_C AMP = false ->
  In c (_sanitize s) ->
  category_C c = true ->
  c = LF \/ c = TAB.
Proof.
  intros Hsp Hq Ha Hc Hcat.
  pose proof (sanitize_clean s Hsp Hq Ha) as H.
  rewrite Forall_forall in H. destruct (H c Hc) as [_ Hk].
  unfold keep_char in Hk. rewrite Hcat in Hk. cbn in Hk.
  rewrite orb_false_r in Hk. apply orb_true_iff in Hk as [Hk|Hk];
    apply N.eqb_eq in Hk; tauto.
Qed.

Lemma replace_from_length old new :
  (List.length new <= List.length old)%nat ->
  forall s skip,
    (skip <= List.length s)%nat ->
    (List.length (replace_from old new s skip) + skip <= List.length s)%nat.
Proof.
  intros Hnew s. induction s as [|c s IH]; intros skip Hskip.
  - simpl in *. lia.
  - cbn [replace_from]. destruct skip as [|k].
    + destruct (startswith (c :: s) old) eqn:E.
      * assert (Hlen : (List.length old <= List.length (c :: s))%nat).
        { clear - E. revert E. generalize (c :: s) as t.
          induction old as [|o old IHo]; intros t E; [simpl; lia|].
          destruct t as [|x t]; [discriminate|].
          cbn [startswith] in E. apply andb_true_iff in E as [_ E].
          apply IHo in E. simpl. lia. }
        cbn [List.length] in *. rewrite length_app.
        specialize (IH (List.length old - 1)%nat). lia.
      * cbn [List.length]. specialize (IH 0%nat). lia.
    + cbn [List.length] in *. specialize (IH k). lia.
Qed.

Lemma replace_length old new s :
  old <> [] ->
  (List.length new <= List.length old)%nat ->
  (List.length (replace old new s) <= List.length s)%nat.
Proof.
  intros Hold Hnew. destruct old as [|o old']; [congruence|].
  unfold replace.
  pose proof (replace_from_length (o :: old') new Hnew s 0). lia.
Qed.

(** X3.  Sanitizing never lengthens a text: every replacement puts at most
    one character for one, the filter only removes, and every entity is
    longer than what it decodes to. *)
Theorem sanitize_length (s : str) :
  (List.length (_sanitize s) <= List.length s)%nat.
Proof.
  unfold _sanitize, decode_entities, repl. cbn [fold_left fst snd].
  repeat (etransitivity;
          [ apply replace_length; [discriminate | simpl; lia] | ]).
  etransitivity; [apply filter_length_le|].
  repeat (etransitivity;
          [ apply replace_length; [discriminate | simpl; lia] | ]).
  reflexivity.
Qed.

Lemma sanitize_safe_text (s : str) :
  Forall (fun c => glyph_free c /\ keep_char c = true /\ c <> AMP) s ->
  _sanitize s = s.
Proof.
  intro H. unfold _sanitize.
  rewrite replace_glyphs_id
    by (eapply Forall_impl; [|exact H]; intros c (Hg & Hk & Ha); assumption).
  rewrite filter_all
    by (eapply Forall_impl; [|exact H]; intros c (Hg & Hk & Ha); assumption).
  apply decode_entities_no_amp.
  eapply Forall_impl; [|exact H]. intros c (Hg & Hk & Ha). assumption.
Qed.

(** X4.  A text that holds no glyph of the replacement table, no character
    the filter removes and no ampersand goes through the sanitizer
    unchanged. *)
Theorem sanitize_passes_safe_text (s : str) :
  Forall (fun c => glyph_free c /\ keep_char c = true /\ c <> AMP) s ->
  _sanitize s = s.
Proof. apply sanitize_safe_text. Qed.

(** X5.  The sanitizer works piece by piece on a text cut after a part
    without ampersand: sanitizing the whole gives the sanitized parts one
    after the other. *)
Theorem sanitize_app (a b : str) :
  Forall (fun c => c <> AMP) a ->
  _sanitize (a ++ b) = _sanitize a ++ _sanitize b.
Proof.
  intro H. unfold _sanitize.
  rewrite glyph_pass_app, filter_app.
  assert (Ha : Forall (fun c => c <> AMP)
                 (filter keep_char
                    (fold_left (fun t bg => replace (fst bg) (snd bg) t)
                       repl a)))
    by (apply filter_keeps_Forall, glyph_pass_no_amp; assumption).
  rewrite decode_entities_app by assumption.
  rewrite (decode_entities_no_amp _ Ha). reflexivity.
Qed.

(** X6.  A glyph of the replacement table is treated as its substitute
    wherever it stands: writing the substitute in its place before
    sanitizing gives the same result. *)
Theorem sanitize_glyph_as_substitute (glyph good a b : str) :
  In (glyph, good) repl ->
  _sanitize (a ++ glyph ++ b) = _sanitize (a ++ good ++ b).
Proof.
  intro H. unfold _sanitize. do 2 f_equal.
  rewrite !glyph_pass_app. do 2 f_equal.
  unfold repl in H. cbn [In] in H.
  repeat (destruct H as [H|H]; [injection H as <- <-; reflexivity|]).
  contradiction.
Qed.

(** X7.  A character of a category C other than the line feed and the tab,
    and not in the replacement table, is removed wherever it stands, before
    the entities are decoded: the text is sanitized as if the character
    were not there. *)
Theorem sanitize_drops_control (c : N) (a b : str) :
  glyph_free c ->
  category_C c = true ->
  c <> LF -> c <> TAB ->
  _sanitize (a ++ c :: b) = _sanitize (a ++ b).
Proof.
  intros Hg Hcat Hlf Htab. unfold _sanitize. f_equal.
  change (c :: b) with ([c] ++ b).
  rewrite !glyph_pass_app, !filter_app. do 2 f_equal.
  rewrite replace_glyphs_id by (constructor; [assumption | constructor]).
  cbn [filter]. unfold keep_char. rewrite Hcat. cbn.
  destruct (N.eqb_spec c LF) as [->|_]; [congruence|].
  destruct (N.eqb_spec c TAB) as [->|_]; [congruence|]. reflexivity.
Qed.

End SanitizerProperties.

(** ** Further properties of the inline formatter *)





Lemma lazy_group_until_no_star D' s :
  stars s = 0%nat -> lazy_group_until (STAR :: D') s = None.
Proof.
  unfold stars. induction s as [|c s IH]; intro H; [reflexivity|].
  cbn [filter] in H. cbn [lazy_group_until].
  destruct (N.eqb_spec STAR c) as [->|Hc]; [discriminate|].
  destruct (c =? LF); [reflexivity|].
  rewrite (IH H).
  destruct s as [|y s]; [reflexivity|].
  cbn [startswith filter] in *.
  destruct (N.eqb_spec STAR y) as [->|_]; [discriminate | reflexivity].
Qed.

Lemma re_sub_no_star D' tmpl s :
  stars s = 0%nat -> re_sub_emphasis (STAR :: D') tmpl s = s.
Proof.
  unfold stars, re_sub_emphasis.
  induction s as [|c s IH]; intro H; [reflexivity|].
  cbn [filter] in H. cbn [re_sub_from]. unfold match_emphasis.
  cbn [startswith].
  destruct (N.eqb_spec STAR c) as [->|Hc]; [discriminate|]. cbn [andb].
  rewrite (IH H). reflexivity.
Qed.

Lemma re_sub_italic_one_star tmpl s :
  (stars s <= 1)%nat -> re_sub_emphasis [STAR] tmpl s = s.
Proof.
  unfold re_sub_emphasis.
  induction s as [|c s IH]; intro H; [reflexivity|].
  unfold stars in H. cbn [filter] in H. cbn [re_sub_from].
  unfold match_emphasis. cbn [startswith List.length skipn].
  destruct (N.eqb_spec STAR c) as [<-|Hc].
  - cbn [List.length] in H. cbn [andb].
    assert (Hs : stars s = 0%nat) by (unfold stars; lia).
    rewrite (lazy_group_until_no_star [] s Hs).
    f_equal. apply (re_sub_no_star [] tmpl s Hs).
  - cbn [andb]. f_equal. apply IH. exact H.
Qed.

Lemma re_sub_bold_one_star tmpl s :
  (stars s <= 1)%nat -> re_sub_emphasis [STAR; STAR] tmpl s = s.
Proof.
  unfold re_sub_emphasis.
  induction s as [|c s IH]; intro H; [reflexivity|].
  unfold stars in H. cbn [filter] in H. cbn [re_sub_from].
  unfold match_emphasis. cbn [startswith].
  destruct (N.eqb_spec STAR c) as [<-|Hc].
  - cbn [List.length] in H.
    assert (Hs : stars s = 0%nat) by (unfold stars; lia).
    destruct s as [|y s].
    + reflexivity.
    + unfold stars in Hs. cbn [filter] in Hs. cbn [andb].
      destruct (STAR =? y) eqn:Ey; [discriminate|]. cbn [andb].
      f_equal. apply (re_sub_no_star [STAR] tmpl (y :: s)).
      unfold stars. cbn [filter]. rewrite Ey. exact Hs.
  - cbn [andb]. f_equal. apply IH. exact H.
Qed.

Lemma replace_char_stars k new s :
  k <> STAR -> stars new = 0%nat -> stars (replace [k] new s) = stars s.
Proof.
  intros Hk Hnew. unfold replace, stars in *.
  induction s as [|c s IH]; [reflexivity|].
  cbn [replace_from startswith List.length Nat.sub]. rewrite andb_true_r.
  destruct (N.eqb_spec k c) as [<-|Hc].
  - rewrite filter_app, length_app, Hnew, IH. cbn [filter].
    destruct (N.eqb_spec STAR k) as [E|_]; [congruence | reflexivity].
  - cbn [filter]. destruct (STAR =? c); cbn [List.length]; rewrite IH;
      reflexivity.
Qed.

Lemma html_escape_single_chars s :
  html_escape s
  = replace [APOSTROPHE] (py "&#x27;")
      (replace [QUOTE] (py "&quot;")
         (replace [GREATER] (py "&gt;")
            (replace [LESS] (py "&lt;")
               (replace [AMP] (py "&amp;") s)))).
Proof. reflexivity. Qed.

Lemma html_escape_stars s : stars (html_escape s) = stars s.
Proof.
  rewrite html_escape_single_chars.
  rewrite !replace_char_stars by (discriminate || reflexivity).
  reflexivity.
Qed.

Lemma fmt_inline_at_most_one_star (t : str) :
  (stars t <= 1)%nat -> _fmt_inline t = html_escape t.
Proof.
  intro H. rewrite <- html_escape_stars in H.
  change (_fmt_inline t)
    with (re_sub_emphasis [STAR] italic_template
            (re_sub_emphasis [STAR; STAR] bold_template (html_escape t))).
  rewrite (re_sub_bold_one_star bold_template _ H).
  apply re_sub_italic_one_star. exact H.
Qed.

(** X9.  A text with at most one asterisk has no emphasis to mark: the
    inline formatter only escapes it, and the asterisk stays as it is. *)
Theorem fmt_inline_lone_star (t : str) :
  (stars t <= 1)%nat ->
  _fmt_inline t = html_escape t /\ stars (_fmt_inline t) = stars t.
Proof.
  intro H. rewrite fmt_inline_at_most_one_star by exact H.
  split; [reflexivity | apply html_escape_stars].
Qed.

(** X10.  A text with none of the five characters [html.escape] rewrites
    and at most one asterisk comes out of the inline formatter unchanged. *)
Theorem fmt_inline_plain_text (t : str) :
  Forall (fun c => c <> AMP /\ c <> LESS /\ c <> GREATER
                   /\ c <> QUOTE /\ c <> APOSTROPHE) t ->
  (stars t <= 1)%nat ->
  _fmt_inline t = t.
Proof.
  intros H Hs. rewrite fmt_inline_at_most_one_star by exact Hs.
  rewrite html_escape_single_chars.
  rewrite (replace_char_absent AMP), (replace_char_absent LESS),
    (replace_char_absent GREATER), (replace_char_absent QUOTE),
    (replace_char_absent APOSTROPHE);
    [reflexivity | ..];
    (eapply Forall_impl; [|exact H]); cbv beta; tauto.
Qed.

(** ** Further properties of the table rows *)

Lemma split_on_no_sep sep p :
  Forall (fun c => c <> sep) p -> split_on sep p = [p].
Proof.
  induction 1 as [|c p Hc _ IH]; [reflexivity|].
  cbn [split_on]. destruct (N.eqb_spec c sep) as [->|_]; [congruence|].
  rewrite IH. reflexivity.
Qed.

Lemma split_on_app_sep sep p s :
  Forall (fun c => c <> sep) p ->
  split_on sep (p ++ sep :: s) = p :: split_on sep s.
Proof.
  induction 1 as [|c p Hc _ IH]; cbn [app split_on].
  - rewrite N.eqb_refl. reflexivity.
  - destruct (N.eqb_spec c sep) as [->|_]; [congruence|].
    rewrite IH. reflexivity.
Qed.

(** Splitting what [join] put together gives the parts back, when no part
    holds the separator. *)
Lemma split_on_join sep cells :
  cells <> [] ->
  Forall (Forall (fun c => c <> sep)) cells ->
  split_on sep (join [sep] cells) = cells.
Proof.
  intros Hne H. induction H as [|p cells Hp Hcells IH]; [congruence|].
  destruct cells as [|q cells].
  - cbn [join]. apply split_on_no_sep. assumption.
  - change (join [sep] (p :: q :: cells))
      with (p ++ sep :: join [sep] (q :: cells)).
    rewrite split_on_app_sep by assumption.
    rewrite IH by discriminate. reflexivity.
Qed.

Lemma drop_trailing_snoc p s x :
  p x = false -> drop_trailing p (s ++ [x]) = s ++ [x].
Proof.
  intro Hx. induction s as [|c s IH]; cbn [app drop_trailing].
  - rewrite Hx. reflexivity.
  - rewrite IH. destruct (s ++ [x]) eqn:E; [|reflexivity].
    destruct s; discriminate.
Qed.

Lemma drop_trailing_run p s run :
  forallb p run = true -> drop_trailing p (s ++ run) = drop_trailing p s.
Proof.
  intro Hrun.
  assert (Hr : drop_trailing p run = []).
  { induction run as [|c run IH]; [reflexivity|].
    cbn [forallb] in Hrun. apply andb_true_iff in Hrun as [Hc Hrun].
    cbn [drop_trailing]. rewrite (IH Hrun), Hc. reflexivity. }
  induction s as [|c s IH]; cbn [app drop_trailing].
  - exact Hr.
  - rewrite IH. reflexivity.
Qed.

Lemma strip_unchanged c s x :
  is_space c = false -> is_space x = false ->
  strip (c :: s ++ [x]) = c :: s ++ [x].
Proof.
  intros Hc Hx. unfold strip, lstrip, rstrip.
  cbn [drop_leading]. rewrite Hc.
  apply (drop_trailing_snoc is_space (c :: s) x Hx).
Qed.

Lemma join_last sep cells :
  cells <> [] ->
  In (last cells []) cells
  /\ exists pre, join [sep] cells = pre ++ last cells [].
Proof.
  induction cells as [|p cells IH]; [congruence|]. intros _.
  destruct cells as [|q cells].
  - split; [left; reflexivity | exists []; reflexivity].
  - destruct IH as [Hin [pre E]]; [discriminate|].
    change (last (p :: q :: cells) []) with (last (q :: cells) []).
    split; [right; exact Hin|].
    exists (p ++ [sep] ++ pre).
    change (join [sep] (p :: q :: cells))
      with (p ++ [sep] ++ join [sep] (q :: cells)).
    rewrite E, <- !app_assoc. reflexivity.
Qed.

Lemma pipe_test c : char_in c (py "|") = (c =? PIPE).
Proof. unfold char_in. cbn. apply orb_false_r. Qed.

(** A row written between two pipes, its cells separated by pipes, is read
    back cell by cell. *)
Lemma table_cells_written cells :
  Forall (Forall (fun c => c <> PIPE)) cells ->
  hd [] cells <> [] ->
  last cells [] <> [] ->
  table_cells (PIPE :: join [PIPE] cells ++ [PIPE]) = map strip cells.
Proof.
  intros Hcells Hhd Hlast.
  assert (Hne : cells <> [])
    by (destruct cells; [cbn in Hhd; congruence | discriminate]).
  destruct (join_last PIPE cells Hne) as [Hin [pre Epre]].
  destruct (exists_last Hlast) as (l' & x & El).
  assert (Hx : x <> PIPE).
  { rewrite Forall_forall in Hcells. specialize (Hcells _ Hin).
    rewrite El in Hcells. apply Forall_app in Hcells as [_ Hcells].
    inversion Hcells; assumption. }
  assert (Hhead : exists h t, join [PIPE] cells = h :: t /\ h <> PIPE).
  { destruct cells as [|[|h f] rest]; [congruence | cbn in Hhd; congruence |].
    inversion Hcells as [|? ? Hf _]; subst. inversion Hf; subst.
    destruct rest; eexists _, _; (split; [reflexivity | assumption]). }
  destruct Hhead as (h & t & Eh & Hh).
  assert (Esnoc : join [PIPE] cells = (pre ++ l') ++ [x])
    by (rewrite Epre, El, app_assoc; reflexivity).
  unfold table_cells.
  rewrite (strip_unchanged PIPE (join [PIPE] cells) PIPE) by reflexivity.
  unfold strip_chars. cbn [drop_leading]. rewrite pipe_test, N.eqb_refl.
  rewrite Eh. cbn [app drop_leading]. rewrite pipe_test.
  destruct (N.eqb_spec h PIPE) as [->|_]; [congruence|].
  change (h :: t ++ [PIPE]) with ((h :: t) ++ [PIPE]). rewrite <- Eh.
  rewrite drop_trailing_run
    by (cbn [forallb]; rewrite pipe_test; reflexivity).
  rewrite Esnoc, drop_trailing_snoc
    by (rewrite pipe_test; apply N.eqb_neq; assumption).
  rewrite <- Esnoc, split_on_join by assumption. reflexivity.
Qed.

(** X11.  A row written as a pipe, cells separated by pipes, and a pipe is
    read back as those cells, each trimmed, when no cell holds a pipe and
    the first and the last cell are not empty. *)
Theorem table_cells_round_trip (cells : list str) :
  Forall (Forall (fun c => c <> PIPE)) cells ->
  hd [] cells <> [] ->
  last cells [] <> [] ->
  table_cells (PIPE :: join [PIPE] cells ++ [PIPE]) = map strip cells.
Proof. apply table_cells_written. Qed.

Lemma repeat_hyphen_facts n :
  (1 <= n)%nat ->
  Forall (fun c => c <> PIPE) (repeat HYPHEN n)
  /\ repeat HYPHEN n <> []
  /\ strip (repeat HYPHEN n) = repeat HYPHEN n
  /\ fullmatch_hyphens (replace (py " ") [] (repeat HYPHEN n)) = true.
Proof.
  intro Hn. destruct n as [|n]; [lia|].
  assert (Hall : forall m P, P HYPHEN -> Forall P (repeat HYPHEN m))
    by (intros m P HP; induction m; constructor; assumption).
  repeat split.
  - apply Hall. discriminate.
  - discriminate.
  - destruct (exists_last (l := repeat HYPHEN (S n))) as (l & x & E);
      [discriminate|].
    assert (Hx : x = HYPHEN).
    { assert (Hin : In x (repeat HYPHEN (S n)))
        by (rewrite E; apply in_or_app; right; left; reflexivity).
      apply repeat_spec in Hin. exact Hin. }
    subst x. cbn [repeat] in *.
    destruct l as [|c l].
    + cbn [app] in E. rewrite E. reflexivity.
    + cbn [app] in E. injection E as <- E. rewrite E.
      apply strip_unchanged; reflexivity.
  - change (py " ") with [SPACE].
    rewrite replace_char_absent by (apply Hall; discriminate).
    cbn [repeat fullmatch_hyphens forallb]. rewrite N.eqb_refl. cbn [andb].
    apply forallb_forall. intros c Hc. apply repeat_spec in Hc. subst c.
    reflexivity.
Qed.

Lemma separator_cells ns :
  ns <> [] ->
  Forall (fun n => (1 <= n)%nat) ns ->
  is_separator_row
    (table_cells (PIPE :: join [PIPE] (map (repeat HYPHEN) ns) ++ [PIPE]))
  = true.
Proof.
  intros Hne Hns.
  assert (Hfacts : Forall (fun cell =>
                     Forall (fun c => c <> PIPE) cell /\ cell <> []
                     /\ strip cell = cell
                     /\ fullmatch_hyphens (replace (py " ") [] cell) = true)
                     (map (repeat HYPHEN) ns)).
  { apply Forall_map. eapply Forall_impl; [|exact Hns].
    intros n Hn. apply repeat_hyphen_facts. exact Hn. }
  set (cells := map (repeat HYPHEN) ns) in *.
  assert (Hcne : cells <> [])
    by (subst cells; destruct ns; [congruence | discriminate]).
  rewrite table_cells_written.
  - unfold is_separator_row.
    apply forallb_forall. intros cell Hcell.
    apply in_map_iff in Hcell as (cell0 & <- & Hcell).
    rewrite Forall_forall in Hfacts.
    destruct (Hfacts cell0 Hcell) as (_ & _ & -> & H). exact H.
  - eapply Forall_impl; [|exact Hfacts]. cbv beta. tauto.
  - destruct cells as [|c0 cells']; [congruence|].
    inversion Hfacts as [|? ? (_ & H & _) _]; subst. exact H.
  - destruct (join_last PIPE cells Hcne) as [Hin _].
    rewrite Forall_forall in Hfacts.
    destruct (Hfacts _ Hin) as (_ & H & _). exact H.
Qed.

(** ** Further properties of the scanner *)

Section ScannerProperties.

Context {unicodedata : UnicodeData} {stylesheet : SampleStyleSheet}.

Lemma separator_line_text ns :
  category_C PIPE = false ->
  category_C HYPHEN = false ->
  _sanitize (PIPE :: join [PIPE] (map (repeat HYPHEN) ns) ++ [PIPE])
  = PIPE :: join [PIPE] (map (repeat HYPHEN) ns) ++ [PIPE].
Proof.
  intros Hp Hh. apply sanitize_safe_text.
  assert (Hsafe : forall c, c = PIPE \/ c = HYPHEN ->
                    glyph_free c /\ keep_char c = true /\ c <> AMP).
  { intros c [->| ->]; unfold glyph_free, keep_char;
      rewrite ?Hp, ?Hh; repeat split; discriminate. }
  assert (Hjoin : Forall (fun c => c = PIPE \/ c = HYPHEN)
                    (join [PIPE] (map (repeat HYPHEN) ns))).
  { induction ns as [|n ns IH]; [constructor|].
    assert (Hrep : Forall (fun c => c = PIPE \/ c = HYPHEN) (repeat HYPHEN n))
      by (induction n; constructor; tauto).
    destruct ns as [|m ns]; [exact Hrep|].
    change (join [PIPE] (map (repeat HYPHEN) (n :: m :: ns)))
      with (repeat HYPHEN n ++ [PIPE]
              ++ join [PIPE] (map (repeat HYPHEN) (m :: ns))).
    repeat (apply Forall_app; split); [exact Hrep | | exact IH].
    constructor; [tauto | constructor]. }
  constructor; [apply Hsafe; tauto|].
  apply Forall_app. split.
  - eapply Forall_impl; [|exact Hjoin]. exact Hsafe.
  - constructor; [apply Hsafe; tauto | constructor].
Qed.

(** X12.  Outside a code block, a separator row written as a pipe, runs of
    one or more hyphens separated by pipes, and a pipe is dropped: it
    leaves the story and both buffers as they are.  The Unicode table is
    only asked not to put the pipe and the hyphen in a category C. *)
Theorem separator_row_dropped (st : ScanState) (ns : list nat) :
  category_C PIPE = false ->
  category_C HYPHEN = false ->
  in_code st = false ->
  ns <> [] ->
  Forall (fun n => (1 <= n)%nat) ns ->
  process_line st (PIPE :: join [PIPE] (map (repeat HYPHEN) ns) ++ [PIPE])
  = Ok st.
Proof.
  intros Hp Hh Hc Hne Hns.
  rewrite process_table_line.
  - rewrite separator_line_text by assumption.
    rewrite separator_cells by assumption. reflexivity.
  - rewrite separator_line_text by assumption.
    unfold is_fence.
    destruct (strip_keeps_head PIPE
                (join [PIPE] (map (repeat HYPHEN) ns) ++ [PIPE]) eq_refl)
      as [t ->].
    reflexivity.
  - assumption.
  - rewrite separator_line_text by assumption.
    unfold is_table_line. reflexivity.
Qed.

Lemma scan_plain_lines lines : forall st,
  in_code st = false ->
  table_buf st = [] ->
  Forall plain_line lines ->
  scan lines st =
  Ok (mkState
        (flow st ++ map (fun raw => block_of_line (_sanitize raw)) lines)
        (code_buf st) [] false).
Proof.
  induction lines as [|l lines IH]; intros st Hc Ht Hl.
  - cbn [scan map]. rewrite app_nil_r.
    destruct st; simpl in *; subst; reflexivity.
  - inversion Hl as [|? ? [Hf Hp] Hl']; subst. cbn [scan].
    rewrite process_plain_line by assumption. cbn [bind].
    rewrite IH by (assumption || reflexivity).
    cbn [flow code_buf map]. rewrite Ht. cbn [pending_table app].
    rewrite <- app_assoc. reflexivity.
Qed.

(** X13.  When no line of the trimmed input is a fence or a table line, the
    story holds one block for each line, in the order of the lines, and
    then the spacer of the empty line added after the split. *)
Theorem plain_document_blocks (md : str) :
  Forall plain_line (splitlines (strip md)) ->
  markdown_to_flowables md =
  Ok (map (fun raw => block_of_line (_sanitize raw)) (splitlines (strip md))
        ++ [Spacer]).
Proof.
  intro H. unfold markdown_to_flowables, run.
  rewrite scan_plain_lines;
    [ | reflexivity | reflexivity
      | apply Forall_app; split;
        [exact H | constructor; [split; reflexivity | constructor]] ].
  cbn [bind]. rewrite finish_ok.
  cbn [flow code_buf table_buf initial pending_table pending_code app].
  rewrite app_nil_r, map_app. reflexivity.
Qed.

Lemma scan_table_rows rows : forall st,
  in_code st = false ->
  Forall table_row rows ->
  scan rows st =
  Ok (mkState (flow st) (code_buf st)
        (table_buf st
           ++ map buffered_row
                (filter (fun raw => negb (separator_line raw)) rows))
        false).
Proof.
  induction rows as [|r rows IH]; intros st Hc Hr.
  - cbn [scan filter map]. rewrite app_nil_r.
    destruct st; simpl in *; subst; reflexivity.
  - inversion Hr as [|? ? [Hf Ht] Hr']; subst. cbn [scan filter].
    rewrite process_table_line by assumption. cbn [bind].
    unfold separator_line at 1.
    destruct (is_separator_row (table_cells (_sanitize r))); cbn [negb].
    + apply IH; assumption.
    + rewrite IH by (assumption || reflexivity).
      cbn [flow code_buf table_buf map]. rewrite <- app_assoc. reflexivity.
Qed.

(** X14.  Outside a code block, a run of table lines followed by a line
    that is neither a fence nor a table line becomes one table: the
    separator rows are dropped, the other rows are added to the buffered
    ones in their order, and the table, its spacer and the block of the
    closing line are appended together. *)
Theorem table_run_merged (st : ScanState) (rows : list str) (l : str) :
  in_code st = false ->
  Forall table_row rows ->
  plain_line l ->
  scan (rows ++ [l]) st =
  Ok (mkState
        (flow st
           ++ pending_table
                (table_buf st
                   ++ map buffered_row
                        (filter (fun raw => negb (separator_line raw)) rows))
           ++ [block_of_line (_sanitize l)])
        (code_buf st) [] false).
Proof.
  intros Hc Hr [Hf Hp]. rewrite scan_app.
  rewrite scan_table_rows by assumption. cbn [bind scan].
  rewrite process_plain_line by (assumption || reflexivity).
  reflexivity.
Qed.

(** X15.  Outside a code block, an opening fence, lines without a fence and
    a closing fence append one code block made of the sanitized lines, or
    nothing when there is no line between the fences; the lines are not
    classified and the table buffer is left as it is. *)
Theorem fenced_block (st : ScanState) (opening : str) (body : list str)
    (closing : str) :
  in_code st = false ->
  code_buf st = [] ->
  is_fence (_sanitize opening) = true ->
  Forall no_fence body ->
  is_fence (_sanitize closing) = true ->
  scan (opening :: body ++ [closing]) st =
  Ok (mkState (flow st ++ pending_code (map _sanitize body)) []
        (table_buf st) false).
Proof.
  intros Hc Hb Ho Hbody Hcl. cbn [scan].
  rewrite process_fence by assumption. rewrite Hc. cbn [bind].
  rewrite scan_app, scan_inside_code by (assumption || reflexivity).
  cbn [bind scan flow code_buf table_buf].
  rewrite process_fence by assumption.
  cbn [bind in_code flow code_buf table_buf]. rewrite Hb. reflexivity.
Qed.

(** X16.  The story only grows: the blocks appended for the first lines of
    an input stay, in place and unchanged, at the head of the story after
    any further lines. *)
Theorem story_only_grows (l1 l2 : list str) (st : ScanState) :
  exists st1 st2 fs,
    scan l1 st = Ok st1
    /\ scan (l1 ++ l2) st = Ok st2
    /\ flow st2 = flow st1 ++ fs.
Proof.
  destruct (scan_total l1 st) as [st1 E1].
  exists st1. rewrite scan_app, E1. cbn [bind].
  clear E1. revert st1.
  induction l2 as [|l l2 IH]; intro st1.
  - exists st1, []. rewrite app_nil_r. repeat split.
  - cbn [scan].
    destruct (process_line_cases st1 l) as (fs & cb & tb & ic & E & _).
    rewrite E. cbn [bind].
    destruct (IH (mkState (flow st1 ++ fs) cb tb ic))
      as (st2 & fs' & _ & E2 & F).
    exists st2, (fs ++ fs'). cbn [flow] in F.
    rewrite app_assoc. repeat split; assumption.
Qed.

Lemma process_line_in_code st raw :
  exists st',
    process_line st raw = Ok st'
    /\ in_code st' = if is_fence (_sanitize raw) then negb (in_code st)
                     else in_code st.
Proof.
  destruct (is_fence (_sanitize raw)) eqn:H1.
  - rewrite process_fence by assumption.
    destruct (in_code st); eexists; split; reflexivity.
  - destruct (in_code st) eqn:H2.
    + rewrite process_in_code by assumption. eexists; split; reflexivity.
    + destruct (is_table_line (_sanitize raw)) eqn:H3.
      * rewrite process_table_line by assumption.
        destruct (is_separator_row _); eexists; (split; [reflexivity|]);
          [exact H2 | reflexivity].
      * rewrite process_plain_line by assumption.
        eexists; split; reflexivity.
Qed.

(** X17.  After any lines the scanner is inside a code block exactly when
    it has toggled an odd number of times: the flag is the one it started
    with, flipped once for every fence line. *)
Theorem in_code_is_fence_parity (lines : list str) (st : ScanState) :
  exists st',
    scan lines st = Ok st'
    /\ in_code st' = xorb (in_code st) (Nat.odd (fence_count lines)).
Proof.
  revert st. induction lines as [|l lines IH]; intro st.
  - exists st. split; [reflexivity|]. cbn. rewrite xorb_false_r. reflexivity.
  - cbn [scan]. destruct (process_line_in_code st l) as (st1 & E & Hc).
    rewrite E. cbn [bind]. destruct (IH st1) as (st' & E' & Hc').
    exists st'. split; [exact E'|]. rewrite Hc', Hc.
    unfold fence_count. cbn [filter].
    destruct (is_fence (_sanitize l)); [|reflexivity].
    cbn [List.length]. rewrite Nat.odd_succ, <- Nat.negb_odd.
    destruct (in_code st), (Nat.odd _); reflexivity.
Qed.

(** X18.  The markup of a code paragraph holds no space and no line feed:
    every space of the code is written as a no-break space entity and
    every line end as a break tag. *)
Theorem code_markup_has_no_space (buf : list str) (c : N) :
  In c (code_markup buf) -> c <> SPACE /\ c <> LF.
Proof.
  assert (H : Forall (fun c => c <> LF /\ (c <> SPACE /\ True))
                (code_markup buf)).
  { unfold code_markup. change (py " ") with [SPACE].
    repeat (apply replace_char_clean;
            [ simpl;
              repeat first [ apply Forall_nil | apply Forall_cons
                           | discriminate | exact I | split ] | ]).
    apply Forall_forall. intros; exact I. }
  intro Hc. rewrite Forall_forall in H. specialize (H c Hc). tauto.
Qed.

(** *** The style sheet *)

Lemma style_in_In key sheet : style_in key sheet = true <-> In key sheet.
Proof.
  unfold style_in. rewrite existsb_exists. split.
  - intros (x & Hx & E). apply String.eqb_eq in E. subst. exact Hx.
  - intro H. exists key. split; [exact H | apply String.eqb_refl].
Qed.




Lemma NoDup_snoc (l : list string) x : NoDup l -> ~ In x l -> NoDup (l ++ [x]).
Proof.
  induction 1 as [|y l Hy Hl IH]; intro Hx; cbn [app].
  - constructor; [intros [] | constructor].
  - constructor.
    + rewrite in_app_iff. cbn [In]. intros [H|[H|[]]]; [tauto|].
      subst. apply Hx. left. reflexivity.
    + apply IH. intro H. apply Hx. right. exact H.
Qed.

Lemma register_keeps_sheet sheet name :
  (NoDup sheet -> NoDup (register sheet name))
  /\ exists added, register sheet name = sheet ++ added.
Proof.
  unfold register. destruct (style_in name sheet) eqn:E; cbn [negb].
  - split; [tauto | exists []; rewrite app_nil_r; reflexivity].
  - split; [|exists [name]; reflexivity].
    intro H. apply NoDup_snoc; [exact H|].
    intro Hin. apply style_in_In in Hin. congruence.
Qed.

(** X20.  Loading the module keeps the sample sheet as it is and only adds
    to it: the styles of the sample sheet stay at the head of [STYLES], in
    their order, and no name is entered twice, so that [STYLES.add] is
    never called with a name the sheet already has. *)
Theorem STYLES_extends_sample :
  (exists added, STYLES = sample ++ added)
  /\ (NoDup sample -> NoDup STYLES).
Proof.
  unfold STYLES. generalize sample as sheet. generalize _BASE as names.
  induction names as [|n names IH]; intro sheet; cbn [fold_left].
  - split; [exists []; rewrite app_nil_r; reflexivity | tauto].
  - destruct (register_keeps_sheet sheet n) as [Hnd [a1 E1]].
    destruct (IH (register sheet n)) as [[a2 E2] Hnd2].
    split.
    + exists (a1 ++ a2). rewrite E2, E1, app_assoc. reflexivity.
    + intro H. apply Hnd2, Hnd, H.
Qed.

End ScannerProperties.

(** ** Quotes in formatted text *)

Lemma re_sub_from_Forall (P : N -> Prop) D tmpl :
  (forall g, Forall P (expand_template tmpl [g])) ->
  forall s skip, Forall P s -> Forall P (re_sub_from D tmpl s skip).
Proof.
  intros Htmpl s. induction s as [|c s IH]; intros skip Hs; cbn [re_sub_from].
  - constructor.
  - inversion Hs as [|? ? Hc Hs']; subst.
    destruct skip as [|k]; [|apply IH; assumption].
    destruct (match_emphasis D (c :: s)) as [[g n]|].
    + apply Forall_app. split; [apply Htmpl | apply IH; assumption].
    + constructor; [assumption | apply IH; assumption].
Qed.

(** X21.  Formatted text holds no double quote and no apostrophe: both are
    always written as their entities, and the tags the formatter adds have
    none. *)
Theorem fmt_inline_has_no_quote (t : str) (c : N) :
  In c (_fmt_inline t) -> c <> QUOTE /\ c <> APOSTROPHE.
Proof.
  assert (H : Forall (fun c => c <> APOSTROPHE /\ (c <> QUOTE /\ True))
                (_fmt_inline t)).
  { unfold _fmt_inline, re_sub_emphasis.
    repeat (apply re_sub_from_Forall;
            [ intro g; cbn;
              repeat first [ apply Forall_nil | apply Forall_cons
                           | discriminate | exact I | split ] | ]).
    rewrite html_escape_single_chars.
    repeat (apply replace_char_clean;
            [ simpl;
              repeat first [ apply Forall_nil | apply Forall_cons
                           | discriminate | exact I | split ] | ]).
    apply Forall_forall. intros; exact I. }
  intro Hc. rewrite Forall_forall in H. specialize (H c Hc). tauto.
Qed.

(** ** Further lines and the trimming of the input *)

Lemma drop_leading_run p ws s :
  forallb p ws = true -> drop_leading p (ws ++ s) = drop_leading p s.
Proof.
  induction ws as [|c ws IH]; intro H; [reflexivity|].
  cbn [forallb] in H. apply andb_true_iff in H as [Hc H].
  cbn [app drop_leading]. rewrite Hc. apply IH. exact H.
Qed.

Lemma strip_app_space md ws :
  forallb is_space ws = true -> strip (md ++ ws) = strip md.
Proof.
  intro H. unfold strip, lstrip, rstrip.
  induction md as [|c md IH].
  - cbn [app]. rewrite <- (app_nil_r ws).
    rewrite drop_leading_run by exact H. reflexivity.
  - cbn [app drop_leading]. destruct (is_space c); [exact IH|].
    apply (drop_trailing_run is_space (c :: md) ws H).
Qed.

Lemma strip_space_app ws md :
  forallb is_space ws = true -> strip (ws ++ md) = strip md.
Proof.
  intro H. unfold strip, lstrip. rewrite drop_leading_run by exact H.
  reflexivity.
Qed.

Lemma four_hashes_block tail :
  block_of_line (HASH :: HASH :: HASH :: HASH :: tail)
  = BodyParagraph (_fmt_inline (HASH :: HASH :: HASH :: HASH :: tail)).
Proof.
  unfold block_of_line.
  destruct (strip_keeps_head HASH (HASH :: HASH :: HASH :: tail) eq_refl)
    as [t E].
  rewrite E. reflexivity.
Qed.

Section LineProperties.

Context {unicodedata : UnicodeData} {stylesheet : SampleStyleSheet}.

(** X22.  The trimming of the input: white space before and after the text
    changes nothing in the story. *)
Theorem surrounding_space_ignored (before md after : str) :
  forallb is_space before = true ->
  forallb is_space after = true ->
  markdown_to_flowables (before ++ md ++ after) = markdown_to_flowables md.
Proof.
  intros Hb Ha. unfold markdown_to_flowables.
  rewrite strip_space_app, strip_app_space by assumption. reflexivity.
Qed.

Lemma sanitize_hashes k rest :
  category_C HASH = false ->
  _sanitize (repeat HASH k ++ rest) = repeat HASH k ++ _sanitize rest.
Proof.
  intro Hh. induction k as [|k IH]; [reflexivity|].
  cbn [repeat app]. rewrite sanitize_cons, IH;
    [ reflexivity | unfold glyph_free; repeat split; discriminate
    | exact Hh | discriminate ].
Qed.

(** X23.  Outside a code block, a line that starts with four or more hashes
    is no heading: it appends one body paragraph that keeps the hashes.
    The Unicode table is only asked not to put the hash in a category C. *)
Theorem four_hashes_no_heading (st : ScanState) (k : nat) (rest : str) :
  category_C HASH = false ->
  in_code st = false ->
  (4 <= k)%nat ->
  process_line st (repeat HASH k ++ rest) =
  Ok (mkState
        (flow st ++ pending_table (table_buf st)
           ++ [BodyParagraph (_fmt_inline (repeat HASH k ++ _sanitize rest))])
        (code_buf st) [] false).
Proof.
  intros Hh Hc Hk.
  destruct k as [|[|[|[|k]]]]; try lia.
  pose proof (sanitize_hashes (S (S (S (S k)))) rest Hh) as E.
  cbn [repeat app] in *.
  rewrite process_plain_line;
    [ | rewrite E; apply hash_line_not_fence | assumption
      | rewrite E; apply hash_line_not_table ].
  rewrite E, four_hashes_block. reflexivity.
Qed.

(** X24.  Outside a code block, a line made of a hyphen or an asterisk, a
    space and a rest without pipe appends one list item: a bullet, a space
    and the sanitized, formatted rest.  The Unicode table is only asked not
    to put the marker and the space in a category C. *)
Theorem list_item_line (st : ScanState) (marker : N) (rest : str) :
  marker = HYPHEN \/ marker = STAR ->
  category_C marker = false ->
  category_C SPACE = false ->
  in_code st = false ->
  contains (py "|") (_sanitize rest) = false ->
  process_line st (marker :: SPACE :: rest) =
  Ok (mkState
        (flow st ++ pending_table (table_buf st)
           ++ [ListItem (_fmt_inline (_sanitize rest))])
        (code_buf st) [] false).
Proof.
  intros Hm Hcm Hcs Hc Hp.
  assert (E : _sanitize (marker :: SPACE :: rest)
              = marker :: SPACE :: _sanitize rest).
  { rewrite !sanitize_cons; try assumption; try reflexivity;
      try (unfold glyph_free; repeat split; discriminate);
      destruct Hm; subst; try discriminate;
      unfold glyph_free; repeat split; discriminate. }
  assert (Hs : is_space marker = false) by (destruct Hm; subst; reflexivity).
  rewrite process_plain_line; [ | | assumption | ].
  - rewrite E. destruct Hm; subst; reflexivity.
  - rewrite E. unfold is_fence.
    destruct (strip_keeps_head marker (SPACE :: _sanitize rest) Hs) as [t ->].
    destruct Hm; subst; reflexivity.
  - rewrite E. unfold is_table_line. cbn [contains].
    rewrite Hp. destruct Hm; subst; reflexivity.
Qed.

End LineProperties.

(** ** The further properties on examples *)

Lemma sanitize_has_no_table_glyph_witness :
  In 45 (sanitize [8211; 97])
  /\ (45 <> 8211 /\ 45 <> 8212 /\ 45 <> 160 /\ 45 <> 8239 /\ 45 <> 173
      /\ 45 <> 8288).
Proof.
  split; [left; reflexivity|].
  apply (sanitize_has_no_table_glyph (unicodedata := ucd) [8211; 97] 45).
  left. reflexivity.
Defined.

Lemma sanitize_has_no_control_witness :
  In TAB (sanitize [97; TAB]) /\ (TAB = LF \/ TAB = TAB).
Proof.
  split; [right; left; reflexivity|].
  apply (sanitize_has_no_control (unicodedata := ucd) [97; TAB] TAB);
    try reflexivity.
  right. left. reflexivity.
Defined.

Lemma sanitize_passes_safe_text_witness :
  sanitize (py "plain text") = py "plain text".
Proof.
  apply (sanitize_passes_safe_text (unicodedata := ucd) (py "plain text")).
  repeat (apply Forall_cons;
          [ unfold glyph_free; repeat split; (discriminate || reflexivity) | ]).
  apply Forall_nil.
Defined.

Lemma sanitize_app_witness :
  sanitize ([97; 8211] ++ py "&amp;")
  = sanitize [97; 8211] ++ sanitize (py "&amp;").
Proof.
  apply (sanitize_app (unicodedata := ucd) [97; 8211] (py "&amp;")).
  repeat (apply Forall_cons; [discriminate|]). apply Forall_nil.
Defined.

Lemma sanitize_glyph_as_substitute_witness :
  sanitize (py "a" ++ [8212] ++ py "b")
  = sanitize (py "a" ++ py "-" ++ py "b").
Proof.
  apply (sanitize_glyph_as_substitute (unicodedata := ucd)
           [8212] (py "-") (py "a") (py "b")).
  right. left. reflexivity.
Defined.

Lemma sanitize_drops_control_witness :
  sanitize (py "&am" ++ 0 :: py "p;") = sanitize (py "&am" ++ py "p;").
Proof.
  apply (sanitize_drops_control (unicodedata := ucd) 0 (py "&am") (py "p;"));
    [ unfold glyph_free; repeat split; discriminate
    | reflexivity | discriminate | discriminate ].
Defined.


Lemma fmt_inline_lone_star_witness :
  _fmt_inline (py "2 * 3 < 7") = html_escape (py "2 * 3 < 7")
  /\ stars (_fmt_inline (py "2 * 3 < 7")) = stars (py "2 * 3 < 7").
Proof.
  apply (fmt_inline_lone_star (py "2 * 3 < 7")).
  apply le_n.
Defined.

Lemma fmt_inline_plain_text_witness :
  _fmt_inline (py "plain * text") = py "plain * text".
Proof.
  apply (fmt_inline_plain_text (py "plain * text")).
  - repeat (apply Forall_cons; [repeat split; discriminate|]).
    apply Forall_nil.
  - apply le_n.
Defined.

Lemma table_cells_round_trip_witness :
  table_cells (PIPE :: join [PIPE] [py " a "; []; py "b"] ++ [PIPE])
  = map strip [py " a "; []; py "b"].
Proof.
  apply (table_cells_round_trip [py " a "; []; py "b"]).
  - repeat (apply Forall_cons;
            [repeat (apply Forall_cons; [discriminate|]); apply Forall_nil|]).
    apply Forall_nil.
  - discriminate.
  - discriminate.
Defined.

Lemma separator_row_dropped_witness :
  step initial (PIPE :: join [PIPE] (map (repeat HYPHEN) [3; 5]%nat) ++ [PIPE])
  = Ok initial.
Proof.
  apply (separator_row_dropped (unicodedata := ucd)
           (stylesheet := reportlab_sample) initial [3; 5]%nat);
    [ reflexivity | reflexivity | reflexivity | discriminate
    | repeat constructor ].
Defined.

Lemma plain_document_blocks_witness :
  to_blocks (text_of_lines ["# Title"; "text"; "- item"]%string)
  = Ok (map (fun raw => block_of_line (sanitize raw))
          (splitlines (strip (text_of_lines ["# Title"; "text"; "- item"]%string)))
          ++ [Spacer]).
Proof.
  apply (plain_document_blocks (unicodedata := ucd)
           (stylesheet := reportlab_sample)
           (text_of_lines ["# Title"; "text"; "- item"]%string)).
  apply Forall_forall. intros l Hl. vm_compute in Hl.
  destruct Hl as [<-|[<-|[<-|[]]]]; split; reflexivity.
Defined.

Lemma table_run_merged_witness :
  scan (unicodedata := ucd) (stylesheet := reportlab_sample)
    ([py "| a | b |"; py "|---|---|"; py "| c | d |"] ++ [py "text"]) initial
  = Ok (mkState
          [ TableBlock [[py "a"; py "b"]; [py "c"; py "d"]]; Spacer;
            BodyParagraph (py "text") ]
          [] [] false).
Proof.
  apply (table_run_merged (unicodedata := ucd)
           (stylesheet := reportlab_sample) initial
           [py "| a | b |"; py "|---|---|"; py "| c | d |"] (py "text")).
  - reflexivity.
  - repeat (apply Forall_cons; [split; reflexivity|]). apply Forall_nil.
  - split; reflexivity.
Defined.

Lemma fenced_block_witness :
  scan (unicodedata := ucd) (stylesheet := reportlab_sample)
    (py "```python" :: [py "# not a heading"; py "|x|"] ++ [py "```"]) initial
  = Ok (mkState [CodeBlock [py "# not a heading"; py "|x|"]] [] [] false).
Proof.
  apply (fenced_block (unicodedata := ucd) (stylesheet := reportlab_sample)
           initial (py "```python") [py "# not a heading"; py "|x|"]
           (py "```"));
    [ reflexivity | reflexivity | reflexivity
    | repeat (apply Forall_cons; [reflexivity|]); apply Forall_nil
    | reflexivity ].
Defined.

Lemma code_markup_has_no_space_witness :
  In 97 (code_markup [py "a b"; py "c"]) /\ (97 <> SPACE /\ 97 <> LF).
Proof.
  split; [left; reflexivity|].
  apply (code_markup_has_no_space [py "a b"; py "c"] 97).
  left. reflexivity.
Defined.


Lemma STYLES_extends_sample_witness :
  NoDup (STYLES (stylesheet := reportlab_sample)).
Proof.
  apply (STYLES_extends_sample (stylesheet := reportlab_sample)).
  cbn. repeat (apply NoDup_cons; [cbn; intuition discriminate|]).
  apply NoDup_nil.
Defined.

Lemma fmt_inline_has_no_quote_witness :
  In AMP (_fmt_inline (py "'a'"))
  /\ (AMP <> QUOTE /\ AMP <> APOSTROPHE).
Proof.
  split; [left; reflexivity|].
  apply (fmt_inline_has_no_quote (py "'a'") AMP). left. reflexivity.
Defined.

Lemma surrounding_space_ignored_witness :
  to_blocks ([LF; SPACE] ++ py "# Title" ++ [SPACE; LF; LF])
  = to_blocks (py "# Title").
Proof.
  apply (surrounding_space_ignored (unicodedata := ucd)
           (stylesheet := reportlab_sample)
           [LF; SPACE] (py "# Title") [SPACE; LF; LF]);
    reflexivity.
Defined.

Lemma four_hashes_no_heading_witness :
  step initial (repeat HASH 4 ++ py " Title")
  = Ok (mkState [BodyParagraph (py "#### Title")] [] [] false).
Proof.
  apply (four_hashes_no_heading (unicodedata := ucd)
           (stylesheet := reportlab_sample) initial 4 (py " Title"));
    [reflexivity | reflexivity | apply le_n].
Defined.

Lemma list_item_line_witness :
  step initial (STAR :: SPACE :: py "item")
  = Ok (mkState [ListItem (py "item")] [] [] false).
Proof.
  apply (list_item_line (unicodedata := ucd) (stylesheet := reportlab_sample)
           initial STAR (py "item"));
    [right; reflexivity | reflexivity | reflexivity | reflexivity
    | reflexivity].
Defined.
